(** * The buffer model of the editor (pkg/buffer/buffer.go)

    A shallow embedding of the text-buffer package: the line index built by
    [SetSource], the colour overlay built by [GenerateSyntaxTree], the
    message handler [Update] with its scroll, click and cursor arithmetic,
    and the properties of these that the specification states. *)

From Stdlib Require Import ZArith Lia.
From Stdlib Require Import Strings.Byte.
From stdpp Require Import base option list gmap strings.

Open Scope Z_scope.

(** ** Go's [int]

    The package computes with Go's [int], taken here at its 64-bit width.
    Values are integers of [Z]; every addition, subtraction and division of
    the source goes through [Int.wrap], the two's complement wrap-around. *)

Module Int.

Definition bits : Z := 64.
Definition min_int : Z := - 2 ^ (bits - 1).
Definition max_int : Z := 2 ^ (bits - 1) - 1.

Definition wrap (z : Z) : Z := (z - min_int) mod 2 ^ bits + min_int.

Definition add (x y : Z) : Z := wrap (x + y).
Definition sub (x y : Z) : Z := wrap (x - y).

(** Go's [/] truncates toward zero, as [Z.quot] does. *)
Definition quot (x y : Z) : Z := wrap (Z.quot x y).

Definition in_range (z : Z) : Prop := min_int ≤ z ≤ max_int.

End Int.

(** [clamp] limits the value of [val] between [low, high). *)
Definition clamp (val low high : Z) : Z :=
  Z.max low (Z.min val (Int.sub high 1)).

#[global] Instance byte_eq_dec : EqDecision byte := Byte.byte_eq_dec.

(** ** Panics

    A Go panic unwinds the goroutine and, unrecovered, ends the process.
    Code that can panic returns an [outcome]. *)

Inductive panic : Type :=
  | NilDereference
  | IndexOutOfRange (index : nat) (len : nat)
  | LogPanic (message : string).

Inductive outcome (A : Type) : Type :=
  | Returned (a : A)
  | Panicked (p : panic).

Arguments Returned {A} a.
Arguments Panicked {A} p.

#[global] Instance outcome_ret : MRet outcome := λ A a, Returned a.
#[global] Instance outcome_bind : MBind outcome := λ A B f o,
  match o with
  | Returned a => f a
  | Panicked p => Panicked p
  end.

Definition crashes {A : Type} (o : outcome A) : Prop :=
  match o with
  | Returned _ => False
  | Panicked _ => True
  end.

(** ** Data model *)

(** A [*sitter.Node]: a node of the parser's own heap, opaque to this
    package.  A nil pointer is [None]. *)
Inductive Node : Type := NodeAt (addr : N).

(** LineInfo describes a line: where it starts, where it ends and how far
    it is indented. *)
Record LineInfo : Type := mkLineInfo {
  start : Z;
  end_ : Z;
  indentation : Z
}.

(** The zero value a map lookup returns for a missing row. *)
Definition LineInfo_zero : LineInfo :=
  {| start := 0; end_ := 0; indentation := 0 |}.

Definition set_end (l : LineInfo) (e : Z) : LineInfo :=
  {| start := start l; end_ := e; indentation := indentation l |}.
Definition set_indentation (l : LineInfo) (n : Z) : LineInfo :=
  {| start := start l; end_ := end_ l; indentation := n |}.

(** SourceCode is the main container for the opened files. *)
Record SourceCode : Type := mkSourceCode {
  data : list byte;
  colors : list byte;
  cursor : Z;
  tree : option Node;
  lines : gmap Z LineInfo
}.

(** [len] of a slice and of a map, as a Go [int]. *)
Definition len {A : Type} (l : list A) : Z := Z.of_nat (length l).
Definition len_lines (m : gmap Z LineInfo) : Z := Z.of_nat (size m).

(** [bytes.Repeat(b, count)]: [count] copies of [b], concatenated. *)
Definition bytes_Repeat (b : list byte) (count : nat) : list byte :=
  concat (replicate count b).

(** The default colour class, base05 of the theme. *)
Definition default_color : byte := x05.

(** ** SetSource: the line index builder *)

(** The local variables of [SetSource]'s loop. *)
Record scan : Type := mkScan {
  scan_lines : gmap Z LineInfo;
  scan_i : Z;
  scan_prevLine : Z;
  scan_currentLine : Z;
  scan_foundChar : bool;
  scan_lineInfo : LineInfo
}.

Definition scan_init : scan :=
  {| scan_lines := ∅;
     scan_i := 0;
     scan_prevLine := -1;
     scan_currentLine := 0;
     scan_foundChar := false;
     scan_lineInfo := LineInfo_zero |}.

Definition tab : byte := x09.
Definition newline : byte := x0a.
Definition space : byte := x20.

(** One iteration of [for _, b := range source]. *)
Definition SetSource_step (st : scan) (b : byte) : scan :=
  let '(mkScan lines i prevLine currentLine foundChar lineInfo) := st in
  (* if prevLine != currentLine *)
  let '(foundChar, lineInfo, prevLine) :=
    if bool_decide (prevLine ≠ currentLine)
    then (false, {| start := i; end_ := i; indentation := 0 |}, currentLine)
    else (foundChar, lineInfo, prevLine) in
  (* the indentation is the number of leading space characters *)
  let '(lineInfo, foundChar) :=
    if bool_decide (b = tab) && negb foundChar
    then (set_indentation lineInfo (Int.add (indentation lineInfo) 4), foundChar)
    else if bool_decide (b = space) && negb foundChar
    then (set_indentation lineInfo (Int.add (indentation lineInfo) 1), foundChar)
    else (lineInfo, true) in
  (* if b == '\n' *)
  let '(lineInfo, lines, currentLine) :=
    if bool_decide (b = newline)
    then let lineInfo := set_end lineInfo i in
         (lineInfo, <[currentLine := lineInfo]> lines, Int.add currentLine 1)
    else (lineInfo, lines, currentLine) in
  mkScan lines (Int.add i 1) prevLine currentLine foundChar lineInfo.

Definition SetSource_scan (source : list byte) : scan :=
  fold_left SetSource_step source scan_init.

(** SetSource loads a file and computes the appropriate LineInfo's.  Every
    field of the receiver is overwritten. *)
Definition SetSource (s : SourceCode) (source : list byte) : SourceCode :=
  {| data := source;
     colors := bytes_Repeat [x05] (length source);
     cursor := 0;
     tree := None;
     lines := scan_lines (SetSource_scan source) |}.

Definition SourceCode_zero : SourceCode :=
  {| data := []; colors := []; cursor := 0; tree := None; lines := ∅ |}.

(** ** Cursor movement *)

Definition set_cursor (source : SourceCode) (c : Z) : SourceCode :=
  {| data := data source; colors := colors source; cursor := c;
     tree := tree source; lines := lines source |}.

Definition cursorDown (source : SourceCode) (n : Z) : SourceCode := source.

Definition cursorUp (source : SourceCode) (n : Z) : SourceCode := source.

Definition cursorLeft (source : SourceCode) (n : Z) : SourceCode :=
  set_cursor source (clamp (Int.sub (cursor source) n) 0 (len (data source))).

Definition cursorRight (source : SourceCode) (n : Z) : SourceCode :=
  set_cursor source (clamp (Int.add (cursor source) n) 0 (len (data source))).

(** ** The model and its messages *)

Record Viewport : Type := mkViewport {
  offset : Z;
  width : Z;
  height : Z
}.

(** Model represents an opened file.  [source] is a pointer in the code; here
    the record holds the pointed-to [SourceCode] itself, [None] for nil, and
    a write through the pointer is a new value of the field. *)
Record Model : Type := mkModel {
  Path : string;
  fd : option N;
  Focused : bool;
  modified : bool;
  ready : bool;
  source : option SourceCode;
  viewport : Viewport
}.

Definition set_viewport (m : Model) (v : Viewport) : Model :=
  {| Path := Path m; fd := fd m; Focused := Focused m; modified := modified m;
     ready := ready m; source := source m; viewport := v |}.
Definition set_ready (m : Model) (r : bool) : Model :=
  {| Path := Path m; fd := fd m; Focused := Focused m; modified := modified m;
     ready := r; source := source m; viewport := viewport m |}.
Definition set_source (m : Model) (s : option SourceCode) : Model :=
  {| Path := Path m; fd := fd m; Focused := Focused m; modified := modified m;
     ready := ready m; source := s; viewport := viewport m |}.
Definition set_offset (m : Model) (o : Z) : Model :=
  set_viewport m
    {| offset := o; width := width (viewport m); height := height (viewport m) |}.

Module TreeReloadMsg.
Record t : Type := mk {
  tree : option Node;
  colors : list byte
}.
End TreeReloadMsg.

(** The buttons of [tea.MouseMsg]. *)
Inductive MouseButton : Type :=
  | MouseButtonNone
  | MouseButtonLeft
  | MouseButtonMiddle
  | MouseButtonRight
  | MouseButtonWheelUp
  | MouseButtonWheelDown
  | MouseButtonWheelLeft
  | MouseButtonWheelRight
  | MouseButtonBackward
  | MouseButtonForward
  | MouseButton10
  | MouseButton11.

(** The messages [Update] tells apart; a key message is its [String()]. *)
Inductive Msg : Type :=
  | WindowSizeMsg (Width Height : Z)
  | KeyMsg (key : string)
  | MouseMsg (Button : MouseButton) (X Y : Z)
  | TreeReload (msg : TreeReloadMsg.t)
  | UpdateViewportMsg (n : Z)
  | OtherMsg.

(** The commands [Update] collects in [cmds]; it returns their
    [tea.Batch]. *)
Inductive Cmd : Type :=
  | CmdNil
  | UpdateViewport
  | ShowStatus (status : string).

(** Reading or writing a field through a pointer panics on nil. *)
Definition deref (p : option SourceCode) : outcome SourceCode :=
  match p with
  | Some s => Returned s
  | None => Panicked NilDereference
  end.

(** [clamp(offset+delta, 0, len(m.source.lines)-m.viewport.height+2)]. *)
Definition scroll (m : Model) (val : Z → Z) : outcome Model :=
  s ← deref (source m);
  mret (set_offset m
          (clamp (val (offset (viewport m))) 0
             (Int.add (Int.sub (len_lines (lines s)) (height (viewport m))) 2))).

(** The byte offset a left click at column [x] of the row described by
    [line] puts the cursor on. *)
Definition click_cursor (line : LineInfo) (x : Z) : Z :=
  let pos :=
    if bool_decide (indentation line > 0)
    then Int.add (Int.quot (Z.min x (indentation line)) 4)
                 (clamp (Int.sub x (indentation line)) 0 (end_ line))
    else x in
  clamp (Int.add (start line) pos) (start line) (Int.add (end_ line) 1).

Definition Update (m : Model) (msg : Msg) : outcome (Model * list Cmd) :=
  match msg with
  (* On Resize, re-render the viewport *)
  | WindowSizeMsg Width Height =>
      let m :=
        if negb (ready m)
        then set_ready
               (set_viewport m
                  {| offset := 0; height := Int.sub Height 2; width := Width |})
               true
        else set_viewport m
               {| offset := offset (viewport m);
                  height := Int.sub Height 2; width := Width |} in
      mret (m, [])
  | KeyMsg key =>
      (* Half page up *)
      m ← (if bool_decide (key = "ctrl+u"%string)
           then scroll m (λ o, Int.sub o (Int.quot (height (viewport m)) 2))
           else mret m);
      (* Half page down *)
      m ← (if bool_decide (key = "ctrl+d"%string)
           then scroll m (λ o, Int.add o (Int.quot (height (viewport m)) 2))
           else mret m);
      (* a method with an empty body runs on a nil receiver too *)
      m ← (if bool_decide (key = "j"%string)
           then mret (set_source m ((λ s, cursorDown s 1) <$> source m))
           else mret m);
      m ← (if bool_decide (key = "k"%string)
           then mret (set_source m ((λ s, cursorUp s 1) <$> source m))
           else mret m);
      m ← (if bool_decide (key = "l"%string)
           then s ← deref (source m); mret (set_source m (Some (cursorRight s 1)))
           else mret m);
      m ← (if bool_decide (key = "h"%string)
           then s ← deref (source m); mret (set_source m (Some (cursorLeft s 1)))
           else mret m);
      mret (m, [CmdNil])
  | MouseMsg Button X Y =>
      match Button with
      (* Scroll the viewport with the mouse wheel *)
      | MouseButtonWheelUp =>
          m ← scroll m (λ o, Int.sub o 3); mret (m, [])
      | MouseButtonWheelDown =>
          m ← scroll m (λ o, Int.add o 3); mret (m, [])
      | MouseButtonLeft =>
          let x := Int.sub X 6 in
          let y := Y in
          let row := Int.add (offset (viewport m)) y in
          s ← deref (source m);
          let line := default LineInfo_zero (lines s !! row) in
          mret (set_source m (Some (set_cursor s (click_cursor line x))), [])
      | _ => mret (m, [])
      end
  (* A new syntax tree has been generated *)
  | TreeReload msg =>
      s ← deref (source m);
      let s := {| data := data s; colors := TreeReloadMsg.colors msg;
                  cursor := cursor s; tree := TreeReloadMsg.tree msg;
                  lines := lines s |} in
      mret (set_source m (Some s),
            [UpdateViewport; ShowStatus "Treesitter loaded successfully"])
  | _ => mret (m, [])
  end.

(** ** GenerateSyntaxTree: the colour overlay *)

(** The languages a grammar is linked in for. *)
Inductive Language : Type := golang | rust | nix.

(** A capture of a query match: its name, as [CaptureNameForId] gives it,
    and the byte range of its node.  [StartByte] and [EndByte] are [uint32]. *)
Record Capture : Type := mkCapture {
  capture_name : string;
  StartByte : N;
  EndByte : N
}.

(** A compiled highlight query, owned by the parser library. *)
Inductive Query : Type := QueryAt (addr : N).

(** What the package takes from outside: the embedded highlight queries and
    the tree-sitter binding.  [Matches q tree data] is the sequence of
    matches [NextMatch] yields for [q] run on [tree], each with the captures
    [FilterPredicates] leaves in it. *)
Record Sitter : Type := mkSitter {
  highlightsGo : list byte;
  highlightsRust : list byte;
  highlightsNix : list byte;
  ParseCtx : list byte → Language → option Node;
  NewQuery : list byte → Language → Query + string;
  Matches : Query → option Node → list byte → list (list Capture)
}.

(** The most basic of syntax highlighting: the colour of each capture name,
    in the order of the [switch]. *)
Definition capture_classes : list (string * byte) :=
  [ ("attribute", x0e);
    ("comment", x03);
    ("constant.builtin", x09);
    ("escape", x0c);
    ("function", x0d); ("function.method", x0d); ("function.macro", x0d);
    ("keyword", x0e);
    ("label", x0c);
    ("number", x09);
    ("operator", x0c);
    ("package", x0d);
    ("property", x0d);
    ("punctuation.bracket", x05);
    ("string", x0b);
    ("type", x0a); ("type.builtin", x0a);
    ("variable.member", x0c);
    ("variable.parameter", x08) ]%string.

Fixpoint switch_name (cases : list (string * byte)) (name : string) : byte :=
  match cases with
  | [] => x05
  | (case, color) :: cases =>
      if bool_decide (name = case) then color else switch_name cases name
  end.

Definition capture_color (name : string) : byte :=
  switch_name capture_classes name.

(** [for index := start; index < end; index++ { colors[index] = color }],
    with [count] iterations to go.  [index] stays below [EndByte], so the
    [uint32] increment does not wrap; a write past the slice panics. *)
Fixpoint paint (colors : list byte) (color : byte) (index count : nat)
  : outcome (list byte) :=
  match count with
  | O => Returned colors
  | S count =>
      if decide (index < length colors)%nat
      then paint (<[index := color]> colors) color (S index) count
      else Panicked (IndexOutOfRange index (length colors))
  end.

Definition apply_capture (colors : list byte) (c : Capture)
  : outcome (list byte) :=
  paint colors (capture_color (capture_name c))
    (N.to_nat (StartByte c)) (N.to_nat (EndByte c) - N.to_nat (StartByte c)).

(** A loop over a slice whose body may panic. *)
Fixpoint range_over {A S : Type} (body : S → A → outcome S) (l : list A) (st : S)
  : outcome S :=
  match l with
  | [] => Returned st
  | a :: l => st ← body st a; range_over body l st
  end.

Definition apply_captures (colors : list byte) (cs : list Capture)
  : outcome (list byte) :=
  range_over apply_capture cs colors.

Definition apply_matches (colors : list byte) (ms : list (list Capture))
  : outcome (list byte) :=
  range_over apply_captures ms colors.

(** GenerateSyntaxTree parses the source code using treesitter and generates
    a syntax tree for it.  This is the body of the command it returns; it
    reads [sourceCode] and writes nothing but its own [colors]. *)
Definition GenerateSyntaxTree (sitter : Sitter) (sourceCode : SourceCode)
    (ext : string) : outcome TreeReloadMsg.t :=
  (* Prepare the colors. One for each byte! *)
  let colors := bytes_Repeat [x05] (length (data sourceCode)) in
  '(lang, highlights) ←
    (if bool_decide (ext = ".go"%string)
     then mret (golang, highlightsGo sitter)
     else if bool_decide (ext = ".rs"%string)
     then mret (rust, highlightsRust sitter)
     else if bool_decide (ext = ".nix"%string)
     then mret (nix, highlightsNix sitter)
     else Panicked (LogPanic ("Unsupported language: " +:+ ext)));
  let tree := ParseCtx sitter (data sourceCode) lang in
  q ← match NewQuery sitter highlights lang with
      | inl q => mret q
      | inr err => Panicked (LogPanic err)
      end;
  (* Iterate over query results *)
  colors ← apply_matches colors (Matches sitter q tree (data sourceCode));
  (* Save the current tree and syntax highlighting *)
  mret {| TreeReloadMsg.tree := tree; TreeReloadMsg.colors := colors |}.

(** ** Vocabulary of the properties *)



(** The four ways [Update] scrolls the viewport. *)
Inductive scroll_op : Type :=
  | HalfPageUp
  | HalfPageDown
  | WheelUp
  | WheelDown.

Definition scroll_msg (op : scroll_op) (X Y : Z) : Msg :=
  match op with
  | HalfPageUp => KeyMsg "ctrl+u"
  | HalfPageDown => KeyMsg "ctrl+d"
  | WheelUp => MouseMsg MouseButtonWheelUp X Y
  | WheelDown => MouseMsg MouseButtonWheelDown X Y
  end.

Definition scroll_cmds (op : scroll_op) : list Cmd :=
  match op with
  | HalfPageUp | HalfPageDown => [CmdNil]
  | WheelUp | WheelDown => []
  end.

(** The rows each of them moves by; [÷] truncates toward zero. *)
Definition scroll_delta (height : Z) (op : scroll_op) : Z :=
  match op with
  | HalfPageUp => - (height ÷ 2)
  | HalfPageDown => height ÷ 2
  | WheelUp => -3
  | WheelDown => 3
  end.

(** The same with the half page rounded down, as the specification words
    it: [/] on [Z] is the floor. *)
Definition floor_scroll_delta (height : Z) (op : scroll_op) : Z :=
  match op with
  | HalfPageUp => - (height / 2)
  | HalfPageDown => height / 2
  | WheelUp => -3
  | WheelDown => 3
  end.

(** The offset a scroll by [delta] rows ends at. *)
Definition scrolled (offset delta rowCount height : Z) : Z :=
  Z.max 0 (Z.min (offset + delta) (rowCount - height + 1)).

(** The length of a line: the bytes from its start up to its terminator. *)
Definition lineLength (line : LineInfo) : Z := end_ line - start line.

(** The same, counting the terminator. *)
Definition lineLength_terminated (line : LineInfo) : Z :=
  end_ line - start line + 1.

(** The click rule in the words of the specification, over a notion
    [lineLength] of the length of a line. *)
Definition spec_click_cursor (lineLength : LineInfo → Z) (line : LineInfo)
    (x : Z) : Z :=
  let pos :=
    if bool_decide (indentation line > 0)
    then Z.min x (indentation line) ÷ 4
         + clamp (x - indentation line) 0 (lineLength line)
    else x in
  clamp (start line + pos) (start line) (end_ line + 1).

(** The click rule of the code, without the wrap-around. *)
Definition click_pos (line : LineInfo) (x : Z) : Z :=
  if bool_decide (indentation line > 0)
  then Z.min x (indentation line) ÷ 4
       + Z.max 0 (Z.min (x - indentation line) (end_ line - 1))
  else x.

Definition click_target (line : LineInfo) (x : Z) : Z :=
  Z.max (start line) (Z.min (start line + click_pos line x) (end_ line)).

(** Numbers far enough from the ends of [int] for the click arithmetic. *)
Definition small (z : Z) : Prop := - 2 ^ 60 ≤ z ≤ 2 ^ 60.

Definition LineInfo_small (line : LineInfo) : Prop :=
  small (start line) ∧ small (end_ line) ∧ small (indentation line).

(** An extension no grammar is linked in for. *)
Definition unsupported (ext : string) : Prop :=
  ext ≠ ".go"%string ∧ ext ≠ ".rs"%string ∧ ext ≠ ".nix"%string.

(** The unsupported-language report of [GenerateSyntaxTree]. *)
Definition UnsupportedLanguage (ext : string) : panic :=
  LogPanic ("Unsupported language: " +:+ ext).

(** The grammar and the highlight query [GenerateSyntaxTree] picks for an
    extension. *)
Definition grammar (sitter : Sitter) (ext : string)
  : option (Language * list byte) :=
  if bool_decide (ext = ".go"%string) then Some (golang, highlightsGo sitter)
  else if bool_decide (ext = ".rs"%string) then Some (rust, highlightsRust sitter)
  else if bool_decide (ext = ".nix"%string) then Some (nix, highlightsNix sitter)
  else None.

(** Byte [i] lies in the range of the capture [c]. *)
Definition covers (c : Capture) (i : nat) : Prop :=
  (N.to_nat (StartByte c) ≤ i < N.to_nat (EndByte c))%nat.

#[global] Instance covers_dec (c : Capture) (i : nat) : Decision (covers c i).
Proof. unfold covers. apply _. Defined.

(** The range of the capture [c] ends inside a slice of [n] bytes. *)
Definition ends_within (n : nat) (c : Capture) : Prop :=
  (N.to_nat (EndByte c) ≤ n)%nat.

(** What byte [i] holds after the captures [cs] were written in order over
    [previous]. *)
Fixpoint last_write (cs : list Capture) (i : nat) (previous : option byte)
  : option byte :=
  match cs with
  | [] => previous
  | c :: cs =>
      last_write cs i
        (if decide (covers c i) then Some (capture_color (capture_name c))
         else previous)
  end.

(** The state a parse-completion message leaves the buffer [s] in. *)
Definition reloaded (s : SourceCode) (msg : TreeReloadMsg.t) : SourceCode :=
  {| data := data s; colors := TreeReloadMsg.colors msg; cursor := cursor s;
     tree := TreeReloadMsg.tree msg; lines := lines s |}.

(** The bytes [start, end) of a slice, as Go's [p[start:end]]. *)
Definition slice (p : list byte) (start end_ : Z) : list byte :=
  take (Z.to_nat (end_ - start)) (drop (Z.to_nat start) p).

(** The bytes that indent a line, and the run of them a line starts with. *)
Definition is_indent (b : byte) : bool :=
  bool_decide (b = tab) || bool_decide (b = space).

Fixpoint leading_whitespace (l : list byte) : list byte :=
  match l with
  | [] => []
  | b :: l => if is_indent b then b :: leading_whitespace l else []
  end.

Definition count_byte (b : byte) (l : list byte) : Z :=
  len (filter (λ x, x = b) l).

(** Four columns for each tab and one for each space. *)
Definition indent_width (l : list byte) : Z :=
  4 * count_byte tab l + 1 * count_byte space l.

(** The text of the row [line] describes, up to its terminator. *)
Definition row_text (p : list byte) (line : LineInfo) : list byte :=
  slice p (start line) (end_ line).

(** [line] describes a row of [p]: a stretch of bytes free of newlines
    that a newline at offset [end] ends, indented by its leading run. *)
Definition row_ok (p : list byte) (line : LineInfo) : Prop :=
  0 ≤ start line ≤ end_ line
  ∧ end_ line < len p
  ∧ p !! Z.to_nat (end_ line) = Some newline
  ∧ (newline ∉ row_text p line)
  ∧ indentation line = indent_width (leading_whitespace (row_text p line)).

(** The loop invariant of [SetSource] after the bytes [p]: the rows
    committed so far tile [p] up to the offset [rs] where the row being
    read starts. *)
Record scan_inv (p : list byte) (st : scan) (rs : Z) : Prop := mkScanInv {
  inv_i : scan_i st = len p;
  inv_count : 0 ≤ scan_currentLine st ≤ len p;
  inv_size : len_lines (scan_lines st) = scan_currentLine st;
  inv_rows : ∀ r, is_Some (scan_lines st !! r) ↔ 0 ≤ r < scan_currentLine st;
  inv_row_ok : ∀ r line, scan_lines st !! r = Some line → row_ok p line;
  inv_first : ∀ line, scan_lines st !! 0 = Some line → start line = 0;
  inv_next : ∀ r a b,
    scan_lines st !! r = Some a → scan_lines st !! (r + 1) = Some b →
    start b = end_ a + 1;
  inv_rs : 0 ≤ rs ≤ len p;
  inv_rs_first : scan_currentLine st = 0 → rs = 0;
  inv_rs_next : ∀ line,
    scan_lines st !! (scan_currentLine st - 1) = Some line → rs = end_ line + 1;
  inv_rs_open : newline ∉ drop (Z.to_nat rs) p;
  inv_current :
    if bool_decide (scan_prevLine st = scan_currentLine st)
    then rs < len p
         ∧ start (scan_lineInfo st) = rs
         ∧ indentation (scan_lineInfo st)
           = indent_width (leading_whitespace (drop (Z.to_nat rs) p))
         ∧ scan_foundChar st = negb (forallb is_indent (drop (Z.to_nat rs) p))
    else rs = len p
}.

(** What one byte adds to the indentation. *)
Definition indent_of (b : byte) : Z :=
  if bool_decide (b = tab) then 4 else if bool_decide (b = space) then 1 else 0.

(** Where the rows of [l] end: the offset after its last newline, read from
    offset [i] on with [rs] the offset after the last newline before. *)
Fixpoint rows_end (l : list byte) (i rs : Z) : Z :=
  match l with
  | [] => rs
  | b :: l => rows_end l (i + 1) (if bool_decide (b = newline) then i + 1 else rs)
  end.

Definition tiled (p : list byte) : Z := rows_end p 0 0.

(** ** Sample inputs *)

(** A parser whose queries match nothing. *)
Definition sitter_no_matches : Sitter :=
  {| highlightsGo := []; highlightsRust := []; highlightsNix := [];
     ParseCtx := λ _ _, Some (NodeAt 0);
     NewQuery := λ _ _, inl (QueryAt 0);
     Matches := λ _ _ _, [] |}.

(** A model showing [s] from its first row in a window of 80 by 24. *)
Definition Model_of (s : SourceCode) : Model :=
  {| Path := "main.go"; fd := Some 3%N; Focused := true; modified := false;
     ready := true; source := Some s;
     viewport := {| offset := 0; width := 80; height := 22 |} |}.

(** The file [a] and the file [ab]. *)
Definition source_a : SourceCode := SetSource SourceCode_zero [x61].
Definition source_ab : SourceCode := SetSource SourceCode_zero [x61; x62].

(** The file of the two lines [a] and [ b], and the file of the line [ b]. *)
Definition source_a_b : SourceCode :=
  SetSource SourceCode_zero [x61; x0a; x20; x62; x0a].
Definition source_b : SourceCode :=
  SetSource SourceCode_zero [x20; x62; x0a].

(** A file of ten empty lines, in a terminal one row high: the window size
    message for that terminal leaves a viewport height of [1 - 2]. *)
Definition source_ten_rows : SourceCode :=
  SetSource SourceCode_zero (replicate 10 x0a).
Definition Model_one_row : Model :=
  {| Path := "main.go"; fd := Some 3%N; Focused := true; modified := false;
     ready := true; source := Some source_ten_rows;
     viewport := {| offset := 5; width := 80; height := -1 |} |}.

(** A parser that finds a string in bytes 2 to 5 and then an escape in
    bytes 3 to 4, and a file of six bytes. *)
Definition sitter_string_escape : Sitter :=
  {| highlightsGo := []; highlightsRust := []; highlightsNix := [];
     ParseCtx := λ _ _, Some (NodeAt 0);
     NewQuery := λ _ _, inl (QueryAt 0);
     Matches := λ _ _ _,
       [ [ {| capture_name := "string"; StartByte := 2; EndByte := 5 |} ];
         [ {| capture_name := "escape"; StartByte := 3; EndByte := 4 |} ] ] |}.
Definition source_six : SourceCode :=
  SetSource SourceCode_zero [x78; x3d; x22; x5c; x22; x0a].

(** ** The rest of the package: rendering, opening a file, runs *)

(** Catppuccin Frappe. *)
Definition theme : list string :=
  [ "#303446"; "#292c3c"; "#414559"; "#51576d"; "#626880"; "#c6d0f5";
    "#f2d5cf"; "#babbf1"; "#e78284"; "#ef9f76"; "#e5c890"; "#a6d189";
    "#81c8be"; "#8caaee"; "#ca9ee6"; "#eebebe" ]%string.

(** [theme[index]]. *)
Definition theme_at (index : nat) : outcome string :=
  match theme !! index with
  | Some color => Returned color
  | None => Panicked (IndexOutOfRange index (length theme))
  end.

(** [l[start:end]] for a slice [l] whose backing array goes on with the
    bytes [spare] past its length: the bounds are checked against the
    capacity, and a failed check is the runtime's bounds panic. *)
Definition reslice (l spare : list byte) (start end_ : Z) : outcome (list byte) :=
  if bool_decide (0 ≤ start ∧ start ≤ end_ ∧ end_ ≤ len l + len spare)
  then Returned (slice (l ++ spare) start end_)
  else Panicked (IndexOutOfRange (Z.to_nat end_) (length l + length spare)).

(** GetSlice returns the slice between start and end. *)
Definition GetSlice (s : SourceCode) (spare : list byte) (start end_ : Z)
  : outcome (list byte) :=
  reslice (data s) spare start end_.

Definition GetColors (s : SourceCode) (spare : list byte) (start end_ : Z)
  : outcome (list byte) :=
  reslice (colors s) spare start end_.

(** Returns a map of type lineIndex: {start in buffer, end in buffer}. *)
Definition Lines (s : SourceCode) : gmap Z LineInfo := lines s.

Definition New : Model :=
  {| Path := ""; fd := None; Focused := true; modified := false;
     ready := false; source := None;
     viewport := {| offset := 0; width := 0; height := 0 |} |}.

(** What [View] writes to its builder, piece by piece; the string it
    returns is the pieces as the styling library renders them, one after
    the other. *)
Inductive cell : Type :=
  | Blank (width height : Z)
  | LineNumber (color : string) (n : Z)
  | CursorOn (b : byte)
  | Colored (color : string) (b : byte)
  | CursorAtEnd
  | NewLine.

(** [for j, b := range line], from index [j] on. *)
Fixpoint View_bytes (s : SourceCode) (lineinfo : LineInfo)
    (colors line : list byte) (j : nat) : outcome (list cell) :=
  match line with
  | [] => Returned []
  | b :: line =>
      c ← (if bool_decide (cursor s = Int.add (start lineinfo) (Z.of_nat j))
           then mret (CursorOn b)
           else match colors !! j with
                | Some color =>
                    t ← theme_at (Byte.to_nat color); mret (Colored t b)
                | None => Panicked (IndexOutOfRange j (length colors))
                end);
      rest ← View_bytes s lineinfo colors line (S j);
      mret (c :: rest)
  end.

(** The body of [for i := start; i < end; i++]. *)
Definition View_row (s : SourceCode) (spare_data spare_colors : list byte)
    (i stop : Z) : outcome (list cell) :=
  let lineinfo := default LineInfo_zero (lines s !! i) in
  line ← GetSlice s spare_data (start lineinfo) (end_ lineinfo);
  colors ← GetColors s spare_colors (start lineinfo) (end_ lineinfo);
  (* Write line numbers *)
  number ← theme_at 2;
  cells ← View_bytes s lineinfo colors line 0;
  mret ([LineNumber number (Int.add i 1)]
        ++ cells
        (* If the cursor is on a line end (aka \n), render a whitespace *)
        ++ (if bool_decide (cursor s = end_ lineinfo) then [CursorAtEnd] else [])
        (* Last character in the viewport needs not be a newline *)
        ++ (if bool_decide (i < Int.sub stop 1) then [NewLine] else [])).

(** The loop, with [count] rows to go; [i] stays below [stop] and its
    increment does not wrap. *)
Fixpoint View_rows (s : SourceCode) (spare_data spare_colors : list byte)
    (i stop : Z) (count : nat) : outcome (list cell) :=
  match count with
  | O => Returned []
  | S count =>
      row ← View_row s spare_data spare_colors i stop;
      rest ← View_rows s spare_data spare_colors (Int.add i 1) stop count;
      mret (row ++ rest)
  end.

(** View renders the Buffer content to screen. *)
Definition View (m : Model) (spare_data spare_colors : list byte)
  : outcome (list cell) :=
  match source m with
  | None => mret [Blank (width (viewport m)) (height (viewport m))]
  | Some s =>
      let start := offset (viewport m) in
      let stop := Int.add (offset (viewport m)) (height (viewport m)) in
      View_rows s spare_data spare_colors start stop (Z.to_nat (stop - start))
  end.

(** What [OpenFile] takes from outside: opening a path and reading a file
    give a result or an error, and [filepath.Ext] gives the extension. *)
Record FileSystem : Type := mkFileSystem {
  os_OpenFile : string → N + string;
  io_ReadAll : N → list byte + string;
  filepath_Ext : string → string
}.

(** The command [OpenFile] returns: the error shown, or the batch of
    [UpdateViewport] and of [GenerateSyntaxTree] on the new buffer and the
    extension. *)
Inductive OpenFileCmd : Type :=
  | ShowError (err : string)
  | OpenBatch (first : Cmd) (sourceCode : SourceCode) (extension : string).

(** OpenFile opens the given file inside the buffer. *)
Definition OpenFile (fs : FileSystem) (m : Model) (path : string)
  : Model * OpenFileCmd :=
  match os_OpenFile fs path with
  | inr err => (m, ShowError err)
  | inl fd =>
      match io_ReadAll fs fd with
      | inr err => (m, ShowError err)
      | inl content =>
          let extension := filepath_Ext fs path in
          let source := SetSource SourceCode_zero content in
          ({| Path := path; fd := Some fd; Focused := Focused m;
              modified := false; ready := ready m; source := Some source;
              viewport := {| offset := 0; width := width (viewport m);
                             height := height (viewport m) |} |},
           OpenBatch UpdateViewport source extension)
      end
  end.

(** A run of the event loop: the messages handled one after the other,
    the commands dropped. *)
Definition Updates (m : Model) (msgs : list Msg) : outcome Model :=
  range_over (λ m msg, r ← Update m msg; mret r.1) msgs m.

(** The messages whose handling reads or writes the buffer. *)
Definition needs_buffer (msg : Msg) : bool :=
  match msg with
  | KeyMsg key => bool_decide (key ∈ ["ctrl+u"; "ctrl+d"; "l"; "h"]%string)
  | MouseMsg (MouseButtonWheelUp | MouseButtonWheelDown | MouseButtonLeft) _ _ =>
      true
  | TreeReload _ => true
  | _ => false
  end.

(** The messages that may move the cursor, and those that may change the
    viewport. *)
Definition moves_cursor (msg : Msg) : bool :=
  match msg with
  | KeyMsg key => bool_decide (key ∈ ["l"; "h"]%string)
  | MouseMsg MouseButtonLeft _ _ => true
  | _ => false
  end.

Definition moves_viewport (msg : Msg) : bool :=
  match msg with
  | WindowSizeMsg _ _ => true
  | KeyMsg key => bool_decide (key ∈ ["ctrl+u"; "ctrl+d"]%string)
  | MouseMsg (MouseButtonWheelUp | MouseButtonWheelDown) _ _ => true
  | _ => false
  end.

Definition is_TreeReload (msg : Msg) : bool :=
  match msg with
  | TreeReload _ => true
  | _ => false
  end.

(** Every row of the index lies in the data, which is no longer than an
    [int] can count. *)
Definition rows_in_data (s : SourceCode) : Prop :=
  len (data s) ≤ Int.max_int
  ∧ ∀ row line, lines s !! row = Some line →
                0 ≤ start line ∧ start line ≤ end_ line ∧ end_ line < len (data s).

(** The cursor is on a byte of the data, or at 0 when there is none. *)
Definition cursor_in_data (s : SourceCode) : Prop :=
  0 ≤ cursor s ≤ Z.max 0 (len (data s) - 1).

(** What a handled message does to the model, case by case. *)
Inductive handled (m : Model) : Msg → Model → Prop :=
  | handled_inert (msg : Msg) :
      needs_buffer msg = false → moves_viewport msg = false →
      handled m msg m
  | handled_resize (Width Height : Z) :
      handled m (WindowSizeMsg Width Height)
        (set_ready
           (set_viewport m
              {| offset := if ready m then offset (viewport m) else 0;
                 width := Width; height := Int.sub Height 2 |})
           true)
  | handled_scroll (s : SourceCode) (msg : Msg) (val : Z) :
      source m = Some s →
      moves_viewport msg = true → moves_cursor msg = false →
      is_TreeReload msg = false →
      handled m msg
        (set_offset m
           (clamp val 0
              (Int.add (Int.sub (len_lines (lines s)) (height (viewport m))) 2)))
  | handled_move (s : SourceCode) (msg : Msg) (val : Z) :
      source m = Some s →
      moves_cursor msg = true → moves_viewport msg = false →
      is_TreeReload msg = false →
      handled m msg
        (set_source m (Some (set_cursor s (clamp val 0 (len (data s))))))
  | handled_click (s : SourceCode) (X Y : Z) (row x : Z) :
      source m = Some s →
      handled m (MouseMsg MouseButtonLeft X Y)
        (set_source m
           (Some (set_cursor s
                    (click_cursor (default LineInfo_zero (lines s !! row)) x))))
  | handled_reload (s : SourceCode) (t : TreeReloadMsg.t) :
      source m = Some s →
      handled m (TreeReload t) (set_source m (Some (reloaded s t))).

(** The capture [c] writes no byte past a slice of [n] bytes: its range is
    empty or ends inside. *)
Definition writes_within (n : nat) (c : Capture) : Prop :=
  (N.to_nat (StartByte c) < N.to_nat (EndByte c) → N.to_nat (EndByte c) ≤ n)%nat.

(** The colour classes an overlay is made of. *)
Definition palette : list byte := default_color :: capture_classes.*2.

(** A buffer [View] can draw: the rows lie in the data, there is a colour
    for each byte, and each colour is an index into the theme. *)
Definition renderable (s : SourceCode) : Prop :=
  rows_in_data s
  ∧ length (colors s) = length (data s)
  ∧ Forall (λ c, is_Some (theme !! Byte.to_nat c)) (colors s).

(** The row number, the byte and the cursor a cell shows. *)
Definition cell_number (c : cell) : option Z :=
  match c with
  | LineNumber _ n => Some n
  | _ => None
  end.

Definition cell_byte (c : cell) : option byte :=
  match c with
  | CursorOn b | Colored _ b => Some b
  | _ => None
  end.

Definition is_cursor_cell (c : cell) : bool :=
  match c with
  | CursorOn _ | CursorAtEnd => true
  | _ => false
  end.

Definition is_NewLine (c : cell) : bool :=
  match c with
  | NewLine => true
  | _ => false
  end.

(** How many of the cells satisfy [f]. *)
Definition count_cells (f : cell → bool) (cells : list cell) : nat :=
  length (List.filter f cells).

(** A message that suits a buffer holding [content]: any message but a
    parse completion, and a parse completion with a colour of the theme for
    each byte of [content]. *)
Definition fits_buffer (content : list byte) (msg : Msg) : Prop :=
  match msg with
  | TreeReload t =>
      length (TreeReloadMsg.colors t) = length content
      ∧ Forall (λ c, is_Some (theme !! Byte.to_nat c)) (TreeReloadMsg.colors t)
  | _ => True
  end.

(** A file system holding one file, [main.go], of the lines [a] and [ b]. *)
Definition fs_main_go : FileSystem :=
  {| os_OpenFile := λ path,
       if bool_decide (path = "main.go"%string) then inl 3%N
       else inr "no such file or directory"%string;
     io_ReadAll := λ _, inl [x61; x0a; x20; x62; x0a];
     filepath_Ext := λ _, ".go"%string |}.

(** The scroll that undoes a scroll. *)
Definition scroll_back (op : scroll_op) : scroll_op :=
  match op with
  | HalfPageUp => HalfPageDown
  | HalfPageDown => HalfPageUp
  | WheelUp => WheelDown
  | WheelDown => WheelUp
  end.

(** Rows drawn one after the other from row [i] on: each is the number of
    the row, then its body, then a newline unless the row is the last
    before [stop]. *)
Fixpoint rows_layout (i stop : Z) (bodies : list (list cell)) : list cell :=
  match bodies with
  | [] => []
  | body :: bodies =>
      LineNumber "#414559" (i + 1)
      :: body
      ++ (if bool_decide (i < stop - 1) then [NewLine] else [])
      ++ rows_layout (i + 1) stop bodies
  end.

(** What a row shows between its number and its newline: no number and no
    newline. *)
Definition row_body (body : list cell) : Prop :=
  omap cell_number body = [] ∧ count_cells is_NewLine body = 0%nat.

(** * Properties *)

(** ** Arithmetic of [int] and [clamp] *)

Module IntFacts.

Lemma modulus : 2 ^ Int.bits = 18446744073709551616.
Proof. reflexivity. Qed.

Lemma min_int_eq : Int.min_int = -9223372036854775808.
Proof. reflexivity. Qed.

Lemma max_int_eq : Int.max_int = 9223372036854775807.
Proof. reflexivity. Qed.

Lemma wrap_in_range (z : Z) : Int.in_range (Int.wrap z).
Proof.
  unfold Int.in_range, Int.wrap. rewrite modulus, min_int_eq, max_int_eq.
  pose proof (Z.mod_pos_bound (z - -9223372036854775808) 18446744073709551616).
  lia.
Qed.

Lemma wrap_id (z : Z) : Int.in_range z → Int.wrap z = z.
Proof.
  unfold Int.in_range, Int.wrap. rewrite modulus, min_int_eq, max_int_eq.
  intros Hz. rewrite Z.mod_small; lia.
Qed.

(** Wrapping never increases a value that is not below [min_int]. *)
Lemma wrap_le (z : Z) : Int.min_int ≤ z → Int.wrap z ≤ z.
Proof.
  unfold Int.wrap. rewrite modulus, min_int_eq. intros Hz.
  pose proof (Z.mod_le (z - -9223372036854775808) 18446744073709551616).
  lia.
Qed.

Lemma add_id (x y : Z) : Int.in_range (x + y) → Int.add x y = x + y.
Proof. apply wrap_id. Qed.

Lemma sub_id (x y : Z) : Int.in_range (x - y) → Int.sub x y = x - y.
Proof. apply wrap_id. Qed.

Lemma quot_id (x y : Z) : Int.in_range (x ÷ y) → Int.quot x y = x ÷ y.
Proof. apply wrap_id. Qed.

End IntFacts.

Lemma clamp_low (val low high : Z) : low ≤ clamp val low high.
Proof. unfold clamp. lia. Qed.

Lemma clamp_high (val low high : Z) :
  clamp val low high ≤ Z.max low (Int.sub high 1).
Proof. unfold clamp. lia. Qed.

(** Where [high - 1] does not overflow, [clamp] is the clamp to
    [low, high - 1]. *)
Lemma clamp_exact (val low high : Z) :
  Int.in_range (high - 1) →
  clamp val low high = Z.max low (Z.min val (high - 1)).
Proof. intros H. unfold clamp. by rewrite IntFacts.sub_id. Qed.

Lemma len_nonneg {A : Type} (l : list A) : 0 ≤ len l.
Proof. unfold len. lia. Qed.

(** A cursor clamped to the data is inside it, however long the data. *)
Lemma clamp_in_data (val : Z) (l : list byte) :
  0 ≤ clamp val 0 (len l) ≤ Z.max 0 (len l - 1).
Proof.
  split; [apply clamp_low |].
  etrans; [apply clamp_high |].
  pose proof (len_nonneg l).
  pose proof (IntFacts.wrap_le (len l - 1)) as Hw.
  rewrite IntFacts.min_int_eq in Hw. unfold Int.sub. lia.
Qed.

(** ** Cursor movement *)

(** C10.  [cursorDown] and [cursorUp] do nothing: whatever the state and the
    argument they return the state as it was, with its data, colors, cursor,
    tree and lines; and so the keys "j" and "k", which call them, leave the
    model as it was, with or without a buffer. *)
Theorem cursorDown_cursorUp_noop (s : SourceCode) (n : Z) (m : Model) :
  cursorDown s n = s
  ∧ cursorUp s n = s
  ∧ Update m (KeyMsg "j") = Returned (m, [CmdNil])
  ∧ Update m (KeyMsg "k") = Returned (m, [CmdNil]).
Proof.
  repeat split; by destruct m as [? ? ? ? ? [s0|] ?].
Qed.





(** Inside the data a step of one byte is exactly that; the last offset a
    move reaches is [len(data) - 1]. *)
Lemma cursorLeft_one (s : SourceCode) :
  Int.in_range (len (data s)) →
  1 ≤ cursor s ≤ len (data s) →
  cursor (cursorLeft s 1) = cursor s - 1.
Proof.
  unfold Int.in_range. rewrite IntFacts.min_int_eq, IntFacts.max_int_eq.
  intros Hl Hc. cbn.
  rewrite clamp_exact, IntFacts.sub_id; [lia | |];
    unfold Int.in_range; rewrite IntFacts.min_int_eq, IntFacts.max_int_eq; lia.
Qed.

Lemma cursorRight_one (s : SourceCode) :
  Int.in_range (len (data s)) →
  0 ≤ cursor s ≤ len (data s) - 2 →
  cursor (cursorRight s 1) = cursor s + 1.
Proof.
  unfold Int.in_range. rewrite IntFacts.min_int_eq, IntFacts.max_int_eq.
  intros Hl Hc. cbn.
  rewrite clamp_exact, IntFacts.add_id; [lia | |];
    unfold Int.in_range; rewrite IntFacts.min_int_eq, IntFacts.max_int_eq; lia.
Qed.




(** ** Clicks *)

Lemma clamp_zero_one (val : Z) : clamp val 0 1 = 0.
Proof. unfold clamp. change (Int.sub 1 1) with 0. lia. Qed.

(** C9.  A left click on a row that has no entry in [lines] puts the cursor
    on byte 0, whatever its column: the lookup gives the zero [LineInfo] and
    [clamp(0 + pos, 0, 1)] is 0 for every [pos].  Nothing else changes. *)
Theorem click_on_missing_row (m : Model) (s : SourceCode) (X Y : Z) :
  source m = Some s →
  lines s !! Int.add (offset (viewport m)) Y = None →
  Update m (MouseMsg MouseButtonLeft X Y)
  = Returned (set_source m (Some (set_cursor s 0)), []).
Proof.
  intros Hs Hrow. unfold Update. rewrite Hs. cbn [deref mbind outcome_bind].
  rewrite Hrow. cbn [default]. unfold click_cursor.
  cbn [indentation start end_ LineInfo_zero].
  rewrite bool_decide_eq_false_2 by lia.
  change (Int.add 0 1) with 1. by rewrite clamp_zero_one.
Qed.

Lemma click_on_missing_row_witness :
  source (Model_of source_a_b) = Some source_a_b
  ∧ lines source_a_b !! Int.add (offset (viewport (Model_of source_a_b))) 7 = None
  ∧ Update (Model_of source_a_b) (MouseMsg MouseButtonLeft 40 7)
    = Returned (set_source (Model_of source_a_b) (Some (set_cursor source_a_b 0)), []).
Proof.
  split; [reflexivity |]. split; [vm_compute; reflexivity |].
  apply (click_on_missing_row (Model_of source_a_b) source_a_b 40 7);
    vm_compute; reflexivity.
Defined.

Ltac int_bounds :=
  unfold LineInfo_small in *; unfold Int.in_range, small in *;
  rewrite ?IntFacts.min_int_eq, ?IntFacts.max_int_eq in *;
  change (2 ^ 60) with 1152921504606846976 in *.

(** Decides the tests of [Update] on the key pressed. *)
Ltac key_cases :=
  repeat (first [ rewrite bool_decide_eq_true_2 by reflexivity
                | rewrite bool_decide_eq_false_2 by discriminate ];
          cbn [mbind outcome_bind mret outcome_ret]).

(** Away from the ends of [int] the click arithmetic does not wrap. *)
Lemma click_cursor_exact (line : LineInfo) (x : Z) :
  LineInfo_small line → small (x + 6) →
  click_cursor line (Int.sub (x + 6) 6) = click_target line x.
Proof.
  intros Hl Hx. unfold click_cursor, click_target, click_pos.
  rewrite IntFacts.sub_id by (int_bounds; lia).
  replace (x + 6 - 6) with x by lia.
  assert (Hq : - 2 ^ 60 ≤ Z.min x (indentation line) ÷ 4 ≤ 2 ^ 60).
  { pose proof (Z.quot_rem (Z.min x (indentation line)) 4 ltac:(lia)).
    pose proof (Z.rem_bound_abs (Z.min x (indentation line)) 4 ltac:(lia)).
    int_bounds. lia. }
  int_bounds.
  rewrite (clamp_exact _ _ (Int.add (end_ line) 1)); last first.
  { rewrite IntFacts.add_id; int_bounds; lia. }
  rewrite (IntFacts.add_id (end_ line) 1) by (int_bounds; lia).
  replace (end_ line + 1 - 1) with (end_ line) by lia.
  case_bool_decide as Hind.
  - rewrite IntFacts.quot_id by (int_bounds; lia).
    rewrite (IntFacts.sub_id x) by (int_bounds; lia).
    rewrite clamp_exact by (int_bounds; lia).
    rewrite (IntFacts.add_id (_ ÷ 4)) by (int_bounds; lia).
    rewrite IntFacts.add_id; first done. int_bounds; lia.
  - rewrite IntFacts.add_id; first done. int_bounds; lia.
Qed.

Lemma click_target_bounds (line : LineInfo) (x : Z) :
  start line ≤ end_ line →
  start line ≤ click_target line x ≤ end_ line.
Proof. unfold click_target. lia. Qed.

Lemma click_target_origin (line : LineInfo) :
  indentation line = 0 → click_target line 0 = start line.
Proof.
  intros Hind. unfold click_target, click_pos.
  rewrite bool_decide_eq_false_2 by lia. lia.
Qed.

(** C4, amended.  A left click at screen column [X], that is at column
    [x = X - 6] right of the gutter, on screen row [Y] reads the [LineInfo]
    [line] of row [offset + Y], the zero value when the row has none, and
    sets the cursor to [clamp(line.start + pos, line.start, line.end + 1)],
    that is to [max(line.start, min(line.start + pos, line.end))], where
    [pos] is [x] when [line.indentation] is not positive and otherwise
    [min(x, indentation)/4 + clamp(x - indentation, 0, line.end)]: the
    division truncates and the bound of the inner clamp is the offset
    [line.end], not a length.  On a line with [start ≤ end] the cursor so
    lands in [start, end], the terminator included, and a click at [x = 0]
    on a line without indentation lands on [line.start].  Nothing but the
    cursor changes. *)
Theorem click_sets_cursor (m : Model) (s : SourceCode) (X Y : Z) :
  source m = Some s →
  small X →
  Int.in_range (offset (viewport m) + Y) →
  LineInfo_small (default LineInfo_zero (lines s !! (offset (viewport m) + Y))) →
  let line := default LineInfo_zero (lines s !! (offset (viewport m) + Y)) in
  Update m (MouseMsg MouseButtonLeft X Y)
  = Returned (set_source m (Some (set_cursor s (click_target line (X - 6)))), [])
  ∧ (start line ≤ end_ line →
     start line ≤ click_target line (X - 6) ≤ end_ line)
  ∧ (indentation line = 0 → X - 6 = 0 →
     click_target line (X - 6) = start line).
Proof.
  intros Hs HX Hrow Hline line. repeat split.
  - unfold Update. rewrite Hs. cbn [deref mbind outcome_bind].
    rewrite IntFacts.add_id by done. fold line.
    replace X with (X - 6 + 6) at 1 by lia.
    rewrite click_cursor_exact; [done | done |].
    by replace (X - 6 + 6) with X by lia.
  - by apply click_target_bounds.
  - by apply click_target_bounds.
  - intros Hind ->. by apply click_target_origin.
Qed.

Lemma click_sets_cursor_witness :
  lines source_a_b !! (offset (viewport (Model_of source_a_b)) + 1)
  = Some (mkLineInfo 2 4 1)
  ∧ Update (Model_of source_a_b) (MouseMsg MouseButtonLeft 8 1)
    = Returned (set_source (Model_of source_a_b)
                  (Some (set_cursor source_a_b 3)), []).
Proof.
  split; [vm_compute; reflexivity |].
  refine (proj1 (click_sets_cursor (Model_of source_a_b) source_a_b 8 1 _ _ _ _)).
  - reflexivity.
  - vm_compute. split; discriminate.
  - vm_compute. split; discriminate.
  - vm_compute. repeat split; discriminate.
Defined.

(** C4, as the specification words it, fails: with the inner clamp bounded
    by a length of the line the rule puts a click right of the text of the
    second row of [a], [ b] on offset 3, where the code puts it on the
    terminator at offset 4; and with the terminator counted in the length
    it puts a click right of the text of the only row of [ b] on offset 2,
    where the code stops at offset 1. *)
Lemma click_right_of_indented_text :
  (lines source_a_b !! 1 = Some (mkLineInfo 2 4 1)
   ∧ Update (Model_of source_a_b) (MouseMsg MouseButtonLeft 11 1)
     = Returned (set_source (Model_of source_a_b)
                   (Some (set_cursor source_a_b 4)), [])
   ∧ spec_click_cursor lineLength (mkLineInfo 2 4 1) (11 - 6) = 3)
  ∧ (lines source_b !! 0 = Some (mkLineInfo 0 2 1)
     ∧ Update (Model_of source_b) (MouseMsg MouseButtonLeft 11 0)
       = Returned (set_source (Model_of source_b)
                     (Some (set_cursor source_b 1)), [])
     ∧ spec_click_cursor lineLength_terminated (mkLineInfo 0 2 1) (11 - 6) = 2).
Proof. vm_compute. repeat split; reflexivity. Qed.

(** ** Scrolling *)

Lemma Update_scroll (m : Model) (s : SourceCode) (op : scroll_op) (X Y : Z) :
  source m = Some s →
  Update m (scroll_msg op X Y)
  = Returned
      (set_offset m
         (clamp
            (match op with
             | HalfPageUp =>
                 Int.sub (offset (viewport m)) (Int.quot (height (viewport m)) 2)
             | HalfPageDown =>
                 Int.add (offset (viewport m)) (Int.quot (height (viewport m)) 2)
             | WheelUp => Int.sub (offset (viewport m)) 3
             | WheelDown => Int.add (offset (viewport m)) 3
             end) 0
            (Int.add (Int.sub (len_lines (lines s)) (height (viewport m))) 2)),
       scroll_cmds op).
Proof.
  intros Hs. destruct op; unfold Update, scroll_msg, scroll; rewrite Hs.
  all: cbn [deref mbind outcome_bind mret outcome_ret scroll_cmds].
  all: key_cases; rewrite ?Hs.
  all: reflexivity.
Qed.

Lemma scroll_delta_in_range (h : Z) (op : scroll_op) :
  Int.in_range h → Int.in_range (scroll_delta h op).
Proof.
  intros Hh.
  pose proof (Z.quot_rem h 2 ltac:(lia)).
  pose proof (Z.rem_bound_abs h 2 ltac:(lia)).
  destruct op; cbn [scroll_delta]; int_bounds; lia.
Qed.

(** C6, amended.  Each of the four scroll operations sets the offset to
    [clamp(offset + delta, 0, rowCount - height + 2)], which from any
    starting offset lies in [0, max(0, rowCount - height + 2)], and where
    [offset + delta] does not overflow is
    [max(0, min(offset + delta, rowCount - height + 1))].  The wheel moves
    by 3 rows up or down; half a page up or down moves by [height/2] rows
    with the division of Go, which truncates toward zero: it is the floor
    for a height that is not negative and is 0, not -1, for a height
    of -1.  Nothing but the offset changes. *)
Theorem scroll_keeps_offset_in_bounds
    (m : Model) (s : SourceCode) (op : scroll_op) (X Y : Z) :
  source m = Some s →
  Int.in_range (height (viewport m)) →
  Int.min_int ≤ len_lines (lines s) - height (viewport m) ≤ Int.max_int - 2 →
  ∃ o : Z,
    Update m (scroll_msg op X Y) = Returned (set_offset m o, scroll_cmds op)
    ∧ 0 ≤ o ≤ Z.max 0 (len_lines (lines s) - height (viewport m) + 2)
    ∧ (Int.in_range (offset (viewport m) + scroll_delta (height (viewport m)) op) →
       o = scrolled (offset (viewport m)) (scroll_delta (height (viewport m)) op)
             (len_lines (lines s)) (height (viewport m))).
Proof.
  intros Hs Hh Hrows. eexists. split; [by apply Update_scroll |].
  set (h := height (viewport m)) in *.
  set (rows := len_lines (lines s)) in *.
  assert (Hhigh : Int.add (Int.sub rows h) 2 = rows - h + 2).
  { rewrite IntFacts.sub_id by (int_bounds; lia).
    rewrite IntFacts.add_id by (int_bounds; lia). done. }
  rewrite Hhigh. rewrite clamp_exact by (int_bounds; lia).
  split; [lia |].
  intros Hval. unfold scrolled.
  pose proof (scroll_delta_in_range h HalfPageDown Hh) as Hq.
  cbn [scroll_delta] in Hq.
  replace (rows - h + 2 - 1) with (rows - h + 1) by lia.
  destruct op; cbn [scroll_delta] in *.
  - rewrite IntFacts.quot_id by done.
    rewrite IntFacts.sub_id; [done |]. int_bounds; lia.
  - rewrite IntFacts.quot_id by done.
    rewrite IntFacts.add_id; [done |]. int_bounds; lia.
  - rewrite IntFacts.sub_id; [done |]. int_bounds; lia.
  - rewrite IntFacts.add_id; [done |]. int_bounds; lia.
Qed.

Lemma scroll_keeps_offset_in_bounds_witness :
  ∃ o : Z,
    Update Model_one_row (scroll_msg HalfPageDown 0 0)
    = Returned (set_offset Model_one_row o, scroll_cmds HalfPageDown)
    ∧ 0 ≤ o ≤ Z.max 0 (10 - -1 + 2)
    ∧ (Int.in_range (5 + scroll_delta (-1) HalfPageDown) →
       o = scrolled 5 (scroll_delta (-1) HalfPageDown) 10 (-1)).
Proof.
  apply (scroll_keeps_offset_in_bounds Model_one_row source_ten_rows
           HalfPageDown 0 0).
  - reflexivity.
  - vm_compute. split; discriminate.
  - vm_compute. split; discriminate.
Defined.

(** C6, as the specification words it, fails: in a terminal one row high
    the viewport height is -1, whose half is 0 in the code and -1 rounded
    down; half a page down from row 5 of ten rows stays on row 5, where the
    rounded-down rule moves to row 4. *)
Lemma half_page_of_negative_height :
  len_lines (lines source_ten_rows) = 10
  ∧ Update (set_offset (Model_of source_ten_rows) 5) (WindowSizeMsg 80 1)
    = Returned (Model_one_row, [])
  ∧ Update Model_one_row (KeyMsg "ctrl+d") = Returned (Model_one_row, [CmdNil])
  ∧ offset (viewport Model_one_row) = 5
  ∧ clamp (5 + floor_scroll_delta (-1) HalfPageDown) 0 (10 - -1 + 2) = 4.
Proof. vm_compute. repeat split; reflexivity. Qed.

(** ** The colour overlay *)

Lemma bytes_Repeat_one (b : byte) (n : nat) :
  bytes_Repeat [b] n = replicate n b.
Proof.
  unfold bytes_Repeat. induction n as [|n IH]; [done |].
  cbn. by rewrite IH.
Qed.

Lemma paint_spec (count : nat) (colors : list byte) (color : byte) (index : nat) :
  (count = 0 ∨ index + count ≤ length colors)%nat →
  ∃ colors',
    paint colors color index count = Returned colors'
    ∧ length colors' = length colors
    ∧ ∀ i, colors' !! i
           = if decide (index ≤ i < index + count)%nat then Some color
             else colors !! i.
Proof.
  revert colors index. induction count as [|count IH]; intros colors index Hin.
  - exists colors. cbn. repeat split. intros i.
    case_decide; [lia | done].
  - cbn [paint]. case_decide as Hlt; [| lia].
    destruct (IH (<[index := color]> colors) (S index)) as (colors' & Hp & Hlen & Hi).
    { rewrite length_insert. lia. }
    exists colors'. split; [done |]. split.
    { by rewrite Hlen, length_insert. }
    intros i. rewrite Hi.
    destruct (decide (i = index)) as [->|Hne].
    + rewrite list_lookup_insert_eq by done.
      repeat case_decide; (done || lia).
    + rewrite list_lookup_insert_ne by done.
      repeat case_decide; (done || lia).
Qed.

(** A paint that returns leaves the length as it was. *)
Lemma paint_length (count : nat) (colors colors' : list byte) (color : byte)
    (index : nat) :
  paint colors color index count = Returned colors' →
  length colors' = length colors.
Proof.
  revert colors index. induction count as [|count IH]; intros colors index.
  - cbn. by intros [= ->].
  - cbn [paint]. case_decide; [| done].
    intros Hp%IH. by rewrite Hp, length_insert.
Qed.

Lemma range_over_length {A : Type} (body : list byte → A → outcome (list byte))
    (l : list A) :
  (∀ colors a colors', body colors a = Returned colors' →
                       length colors' = length colors) →
  ∀ colors colors', range_over body l colors = Returned colors' →
                    length colors' = length colors.
Proof.
  intros Hbody. induction l as [|a l IH]; intros colors colors'.
  - cbn. by intros [= ->].
  - cbn. destruct (body colors a) as [colors1|] eqn:Hb; [| done].
    cbn. intros Hr%IH. rewrite Hr. by eapply Hbody.
Qed.

Lemma apply_matches_length (ms : list (list Capture)) (colors colors' : list byte) :
  apply_matches colors ms = Returned colors' → length colors' = length colors.
Proof.
  apply range_over_length. intros c0 cs c1.
  apply range_over_length. intros c2 c c3. apply paint_length.
Qed.

Lemma range_over_app {A S : Type} (body : S → A → outcome S) (l1 l2 : list A)
    (st : S) :
  range_over body (l1 ++ l2) st = range_over body l1 st ≫= range_over body l2.
Proof.
  revert st. induction l1 as [|a l1 IH]; intros st; [done |].
  cbn. destruct (body st a); [apply IH | done].
Qed.

(** The matches are worked through capture by capture, in order. *)
Lemma apply_matches_concat (ms : list (list Capture)) (colors : list byte) :
  apply_matches colors ms = apply_captures colors (concat ms).
Proof.
  unfold apply_matches, apply_captures.
  revert colors. induction ms as [|m ms IH]; intros colors; [done |].
  cbn [concat range_over]. rewrite range_over_app.
  unfold apply_captures.
  destruct (range_over apply_capture m colors); [apply IH | done].
Qed.

Lemma apply_capture_spec (colors : list byte) (c : Capture) :
  ends_within (length colors) c →
  ∃ colors',
    apply_capture colors c = Returned colors'
    ∧ length colors' = length colors
    ∧ ∀ i, colors' !! i
           = if decide (covers c i) then Some (capture_color (capture_name c))
             else colors !! i.
Proof.
  unfold ends_within, apply_capture, covers. intros Hc.
  destruct (paint_spec (N.to_nat (EndByte c) - N.to_nat (StartByte c)) colors
              (capture_color (capture_name c)) (N.to_nat (StartByte c)))
    as (colors' & Hp & Hlen & Hi); [lia |].
  exists colors'. repeat split; [done | done |].
  intros i. rewrite Hi. repeat case_decide; (done || lia).
Qed.

Lemma apply_captures_spec (cs : list Capture) (colors : list byte) :
  Forall (ends_within (length colors)) cs →
  ∃ colors',
    apply_captures colors cs = Returned colors'
    ∧ length colors' = length colors
    ∧ ∀ i, colors' !! i = last_write cs i (colors !! i).
Proof.
  unfold apply_captures.
  revert colors. induction cs as [|c cs IH]; intros colors Hcs.
  - exists colors. by cbn.
  - apply Forall_cons in Hcs as [Hc Hcs].
    destruct (apply_capture_spec colors c Hc) as (colors1 & H1 & Hlen1 & Hi1).
    destruct (IH colors1) as (colors' & H' & Hlen' & Hi').
    { by rewrite Hlen1. }
    exists colors'. cbn [range_over]. rewrite H1. cbn.
    split; [done |]. split; [congruence |].
    intros i. rewrite Hi', Hi1. done.
Qed.

Lemma last_write_app (cs1 cs2 : list Capture) (i : nat) (previous : option byte) :
  last_write (cs1 ++ cs2) i previous = last_write cs2 i (last_write cs1 i previous).
Proof.
  revert previous. induction cs1 as [|c cs1 IH]; intros previous; [done |].
  cbn. apply IH.
Qed.

Lemma last_write_uncovered (cs : list Capture) (i : nat) (previous : option byte) :
  Forall (λ c, ¬ covers c i) cs → last_write cs i previous = previous.
Proof.
  revert previous. induction cs as [|c cs IH]; intros previous Hcs; [done |].
  apply Forall_cons in Hcs as [Hc Hcs]. cbn.
  rewrite decide_False by done. by apply IH.
Qed.

Lemma switch_name_absent (cases : list (string * byte)) (name : string) :
  name ∉ cases.*1 → switch_name cases name = default_color.
Proof.
  induction cases as [|[case color] cases IH]; [done |].
  cbn. intros Hn. apply not_elem_of_cons in Hn as [Hne Hn].
  rewrite bool_decide_eq_false_2 by done. by apply IH.
Qed.

Lemma last_write_default (cs : list Capture) (i : nat) :
  Forall (λ c, covers c i → capture_name c ∉ capture_classes.*1) cs →
  last_write cs i (Some default_color) = Some default_color.
Proof.
  induction cs as [|c cs IH]; intros Hcs; [done |].
  apply Forall_cons in Hcs as [Hc Hcs]. cbn [last_write].
  case_decide as Hcov; [| by apply IH].
  unfold capture_color. rewrite switch_name_absent by auto. by apply IH.
Qed.

Lemma GenerateSyntaxTree_unfold (sitter : Sitter) (s : SourceCode) (ext : string) :
  GenerateSyntaxTree sitter s ext
  = match grammar sitter ext with
    | None => Panicked (UnsupportedLanguage ext)
    | Some (lang, highlights) =>
        match NewQuery sitter highlights lang with
        | inr err => Panicked (LogPanic err)
        | inl q =>
            colors ← apply_captures (replicate (length (data s)) default_color)
                       (concat (Matches sitter q
                                  (ParseCtx sitter (data s) lang) (data s)));
            mret {| TreeReloadMsg.tree := ParseCtx sitter (data s) lang;
                    TreeReloadMsg.colors := colors |}
        end
    end.
Proof.
  unfold GenerateSyntaxTree, grammar.
  rewrite bytes_Repeat_one.
  repeat case_bool_decide; cbn; try done.
  all: destruct (NewQuery _ _ _); cbn; [| done].
  all: by rewrite apply_matches_concat.
Qed.

(** C5.  For a supported extension whose query compiles and captures whose
    ranges end inside the data, [GenerateSyntaxTree] returns an overlay of
    the length of the data, built from the default class by writing the
    class of each capture over its range in the order the captures come:
    a byte no capture covers holds the default class, a byte holds the class
    of the last capture that covers it whatever was written before, and a
    byte covered only by captures whose names the lookup has no case for
    holds the default class. *)
Theorem overlay_last_write_wins
    (sitter : Sitter) (s : SourceCode) (ext : string)
    (lang : Language) (highlights : list byte) (q : Query) :
  grammar sitter ext = Some (lang, highlights) →
  NewQuery sitter highlights lang = inl q →
  Forall (ends_within (length (data s)))
    (concat (Matches sitter q (ParseCtx sitter (data s) lang) (data s))) →
  ∃ overlay : list byte,
    GenerateSyntaxTree sitter s ext
    = Returned {| TreeReloadMsg.tree := ParseCtx sitter (data s) lang;
                  TreeReloadMsg.colors := overlay |}
    ∧ length overlay = length (data s)
    ∧ (∀ i : nat,
         (i < length (data s))%nat →
         Forall (λ c, ¬ covers c i)
           (concat (Matches sitter q (ParseCtx sitter (data s) lang) (data s))) →
         overlay !! i = Some default_color)
    ∧ (∀ (i : nat) (before : list Capture) (c : Capture) (after : list Capture),
         concat (Matches sitter q (ParseCtx sitter (data s) lang) (data s))
         = before ++ c :: after →
         covers c i →
         Forall (λ c', ¬ covers c' i) after →
         overlay !! i = Some (capture_color (capture_name c)))
    ∧ (∀ i : nat,
         (i < length (data s))%nat →
         Forall (λ c, covers c i → capture_name c ∉ capture_classes.*1)
           (concat (Matches sitter q (ParseCtx sitter (data s) lang) (data s))) →
         overlay !! i = Some default_color).
Proof.
  intros Hg Hq Hcs. rewrite GenerateSyntaxTree_unfold, Hg, Hq.
  set (cs := concat _) in *.
  destruct (apply_captures_spec cs (replicate (length (data s)) default_color))
    as (overlay & Ha & Hlen & Hi).
  { by rewrite length_replicate. }
  rewrite length_replicate in Hlen.
  exists overlay. rewrite Ha. cbn. repeat split; [done | | |].
  - intros i Hlt Hnone. rewrite Hi, last_write_uncovered by done.
    by apply lookup_replicate_2.
  - intros i before c after -> Hc Hafter.
    rewrite Hi, last_write_app. cbn [last_write].
    rewrite decide_True by done. by apply last_write_uncovered.
  - intros i Hlt Habsent. rewrite Hi, lookup_replicate_2 by done.
    by apply last_write_default.
Qed.

Lemma overlay_last_write_wins_witness :
  ∃ overlay : list byte,
    GenerateSyntaxTree sitter_string_escape source_six ".go"
    = Returned {| TreeReloadMsg.tree := Some (NodeAt 0);
                  TreeReloadMsg.colors := overlay |}
    ∧ length overlay = 6%nat
    ∧ overlay !! 3%nat = Some x0c.
Proof.
  destruct (overlay_last_write_wins sitter_string_escape source_six ".go"
              golang [] (QueryAt 0))
    as (overlay & Hg & Hlen & _ & Hlast & _).
  - reflexivity.
  - reflexivity.
  - repeat constructor.
  - exists overlay. split; [exact Hg |]. split; [exact Hlen |].
    apply (Hlast 3%nat
             [ {| capture_name := "string"; StartByte := 2; EndByte := 5 |} ]
             {| capture_name := "escape"; StartByte := 3; EndByte := 4 |} []).
    + reflexivity.
    + unfold covers. cbn. lia.
    + constructor.
Defined.

(** The scenario of C5 in full: a string in bytes 2 to 5 and then an escape
    in bytes 3 to 4 colour byte 3 as an escape, bytes 2 and 4 as a string
    and leave the other bytes in the default class. *)
Example overlay_string_escape :
  GenerateSyntaxTree sitter_string_escape source_six ".go"
  = Returned {| TreeReloadMsg.tree := Some (NodeAt 0);
                TreeReloadMsg.colors := [x05; x05; x0b; x0c; x0b; x05] |}.
Proof. reflexivity. Qed.

(** A capture that ends past the data stops the program. *)
Example overlay_capture_out_of_range :
  apply_capture [x05; x05] {| capture_name := "string"; StartByte := 1; EndByte := 3 |}
  = Panicked (IndexOutOfRange 2 2).
Proof. reflexivity. Qed.

(** An overlay that [GenerateSyntaxTree] returns has the length of the data
    it was computed from. *)
Lemma GenerateSyntaxTree_length (sitter : Sitter) (s : SourceCode) (ext : string)
    (msg : TreeReloadMsg.t) :
  GenerateSyntaxTree sitter s ext = Returned msg →
  length (TreeReloadMsg.colors msg) = length (data s).
Proof.
  unfold GenerateSyntaxTree.
  repeat case_bool_decide; cbn; try done.
  all: destruct (NewQuery _ _ _); cbn; [| done].
  all: destruct (apply_matches _ _) as [overlay|] eqn:Ha; cbn; [| done].
  all: intros [= <-]; cbn.
  all: apply apply_matches_length in Ha.
  all: by rewrite Ha, bytes_Repeat_one, length_replicate.
Qed.

(** ** Parse completion *)

(** What the handler of a parse-completion message does: it replaces the
    colors and the tree of the buffer by those of the message and leaves
    data, cursor and lines as they were, with no check of lengths.  After
    it the colors are as long as the data exactly when the colors of the
    message are, as they are whenever the message was computed by
    [GenerateSyntaxTree] from a buffer holding the same data. *)
Theorem TreeReload_replaces_colors
    (m : Model) (s : SourceCode) (msg : TreeReloadMsg.t) :
  source m = Some s →
  Update m (TreeReload msg)
  = Returned (set_source m (Some (reloaded s msg)),
              [UpdateViewport; ShowStatus "Treesitter loaded successfully"])
  ∧ data (reloaded s msg) = data s
  ∧ colors (reloaded s msg) = TreeReloadMsg.colors msg
  ∧ (length (colors (reloaded s msg)) = length (data (reloaded s msg))
     ↔ length (TreeReloadMsg.colors msg) = length (data s))
  ∧ (∀ (sitter : Sitter) (snapshot : SourceCode) (ext : string),
       data snapshot = data s →
       GenerateSyntaxTree sitter snapshot ext = Returned msg →
       length (colors (reloaded s msg)) = length (data (reloaded s msg))).
Proof.
  intros Hs. repeat split; try done.
  - unfold Update. by rewrite Hs.
  - intros sitter snapshot ext Hdata Hmsg. cbn.
    rewrite <- Hdata. by eapply GenerateSyntaxTree_length.
Qed.

Lemma TreeReload_replaces_colors_witness :
  Update (Model_of source_ab)
    (TreeReload {| TreeReloadMsg.tree := Some (NodeAt 0);
                   TreeReloadMsg.colors := [x0e; x05] |})
  = Returned
      (set_source (Model_of source_ab)
         (Some (reloaded source_ab
                  {| TreeReloadMsg.tree := Some (NodeAt 0);
                     TreeReloadMsg.colors := [x0e; x05] |})),
       [UpdateViewport; ShowStatus "Treesitter loaded successfully"]).
Proof.
  refine (proj1 (TreeReload_replaces_colors (Model_of source_ab) source_ab _ _)).
  reflexivity.
Defined.

(** C1.  The handler breaks the invariant it is to keep, a colour for each
    byte: the buffer of the file [ab] has two colours for its two bytes;
    the parse of the file [a], opened before it, completes with one colour,
    and the handler, which compares no lengths and discards nothing, puts
    that one colour on the two bytes of [ab]. *)
Lemma TreeReload_applies_stale_result :
  length (colors source_ab) = length (data source_ab)
  ∧ GenerateSyntaxTree sitter_no_matches source_a ".go"
    = Returned {| TreeReloadMsg.tree := Some (NodeAt 0);
                  TreeReloadMsg.colors := [x05] |}
  ∧ Update (Model_of source_ab)
      (TreeReload {| TreeReloadMsg.tree := Some (NodeAt 0);
                     TreeReloadMsg.colors := [x05] |})
    = Returned
        (set_source (Model_of source_ab)
           (Some {| data := [x61; x62]; colors := [x05]; cursor := 0;
                    tree := Some (NodeAt 0); lines := ∅ |}),
         [UpdateViewport; ShowStatus "Treesitter loaded successfully"])
  ∧ length [x05] ≠ length [x61; x62].
Proof. repeat split; try reflexivity. discriminate. Qed.

(** ** Unsupported languages *)

Lemma grammar_unsupported (sitter : Sitter) (ext : string) :
  unsupported ext → grammar sitter ext = None.
Proof.
  intros (Hgo & Hrs & Hnix). unfold grammar.
  by rewrite !bool_decide_eq_false_2.
Qed.

Lemma SetSource_colors (s : SourceCode) (source : list byte) :
  colors (SetSource s source) = replicate (length source) default_color.
Proof. cbn. apply bytes_Repeat_one. Qed.

(** C3, amended.  For an extension other than [.go], [.rs] and [.nix],
    [GenerateSyntaxTree] stops in [log.Panicf] with the message
    "Unsupported language: " and the extension, a panic that ends the host
    process; it returns no message, so no overlay replaces the colors of the
    buffer, which [SetSource] set to the default class on every byte. *)
Theorem unsupported_language_panics
    (sitter : Sitter) (s : SourceCode) (ext : string) (source : list byte) :
  unsupported ext →
  GenerateSyntaxTree sitter (SetSource s source) ext
  = Panicked (UnsupportedLanguage ext)
  ∧ crashes (GenerateSyntaxTree sitter (SetSource s source) ext)
  ∧ length (colors (SetSource s source)) = length source
  ∧ ∀ (i : nat) (c : byte),
      colors (SetSource s source) !! i = Some c → c = default_color.
Proof.
  intros Hext.
  assert (Hp : GenerateSyntaxTree sitter (SetSource s source) ext
               = Panicked (UnsupportedLanguage ext)).
  { by rewrite GenerateSyntaxTree_unfold, grammar_unsupported. }
  rewrite Hp, SetSource_colors. repeat split.
  - apply length_replicate.
  - intros i c Hi. by apply lookup_replicate in Hi as [-> _].
Qed.

Lemma unsupported_language_panics_witness :
  unsupported ".xyz"
  ∧ GenerateSyntaxTree sitter_no_matches (SetSource SourceCode_zero [x61; x62]) ".xyz"
    = Panicked (LogPanic "Unsupported language: .xyz").
Proof.
  assert (H : unsupported ".xyz") by (repeat split; discriminate).
  split; [exact H |].
  exact (proj1 (unsupported_language_panics sitter_no_matches SourceCode_zero
                  ".xyz" [x61; x62] H)).
Defined.

(** C3, as stated, fails: highlighting a file of extension [.xyz] does not
    report a condition and return, it panics. *)
Lemma unsupported_language_crashes :
  unsupported ".xyz"
  ∧ GenerateSyntaxTree sitter_no_matches source_ab ".xyz"
    = Panicked (LogPanic "Unsupported language: .xyz")
  ∧ crashes (GenerateSyntaxTree sitter_no_matches source_ab ".xyz").
Proof. repeat split; discriminate. Qed.

(** ** The line index *)

Lemma len_app {A : Type} (l1 l2 : list A) : len (l1 ++ l2) = len l1 + len l2.
Proof. unfold len. rewrite length_app. lia. Qed.

Lemma is_indent_newline : is_indent newline = false.
Proof. reflexivity. Qed.

Lemma leading_whitespace_all (l : list byte) :
  forallb is_indent l = true → leading_whitespace l = l.
Proof.
  induction l as [|b l IH]; [done |]. cbn.
  intros [Hb Hl]%andb_true_iff. rewrite Hb. by rewrite IH.
Qed.

Lemma leading_whitespace_snoc (l : list byte) (b : byte) :
  leading_whitespace (l ++ [b])
  = if forallb is_indent l && is_indent b then l ++ [b]
    else leading_whitespace l.
Proof.
  induction l as [|a l IH]; cbn.
  - by destruct (is_indent b).
  - destruct (is_indent a); cbn; [| done].
    rewrite IH. by destruct (forallb is_indent l && is_indent b).
Qed.

Lemma count_byte_app (b : byte) (l1 l2 : list byte) :
  count_byte b (l1 ++ l2) = count_byte b l1 + count_byte b l2.
Proof. unfold count_byte. by rewrite filter_app, len_app. Qed.

Lemma indent_width_app (l1 l2 : list byte) :
  indent_width (l1 ++ l2) = indent_width l1 + indent_width l2.
Proof. unfold indent_width. rewrite !count_byte_app. lia. Qed.

Lemma indent_width_one (b : byte) : indent_width [b] = indent_of b.
Proof.
  unfold indent_width, indent_of, count_byte.
  rewrite !filter_cons, !filter_nil.
  destruct (decide (b = tab)) as [->|Ht]; [reflexivity |].
  rewrite (bool_decide_eq_false_2 _ Ht).
  destruct (decide (b = space)) as [->|Hs]; [reflexivity |].
  rewrite (bool_decide_eq_false_2 _ Hs). reflexivity.
Qed.

Lemma indent_width_bounds (l : list byte) :
  0 ≤ indent_width l ≤ 4 * len l.
Proof.
  induction l as [|b l IH]; [done |].
  change (b :: l) with ([b] ++ l).
  rewrite indent_width_app, len_app, indent_width_one.
  unfold indent_of. change (len [b]) with 1.
  repeat case_bool_decide; lia.
Qed.

Lemma leading_whitespace_length (l : list byte) :
  len (leading_whitespace l) ≤ len l.
Proof.
  unfold len. induction l as [|b l IH]; [done |]. cbn [leading_whitespace].
  destruct (is_indent b); cbn [length]; lia.
Qed.

Lemma leading_indent_bounds (l : list byte) :
  0 ≤ indent_width (leading_whitespace l) ≤ 4 * len l.
Proof.
  pose proof (indent_width_bounds (leading_whitespace l)).
  pose proof (leading_whitespace_length l). lia.
Qed.

Lemma leading_indent_snoc (l : list byte) (b : byte) :
  indent_width (leading_whitespace (l ++ [b]))
  = indent_width (leading_whitespace l)
    + (if forallb is_indent l && is_indent b then indent_of b else 0).
Proof.
  rewrite leading_whitespace_snoc.
  destruct (forallb is_indent l) eqn:Hl; cbn [andb]; [| lia].
  destruct (is_indent b); [| lia].
  by rewrite leading_whitespace_all, indent_width_app, indent_width_one.
Qed.

Lemma slice_snoc (p : list byte) (b : byte) (a e : Z) :
  0 ≤ a ≤ e → e ≤ len p → slice (p ++ [b]) a e = slice p a e.
Proof.
  unfold slice, len. intros Ha He.
  rewrite drop_app_le by lia. rewrite take_app_le; [done |].
  rewrite length_drop. lia.
Qed.

Lemma slice_to_end (p : list byte) (b : byte) (a : Z) :
  0 ≤ a ≤ len p → slice (p ++ [b]) a (len p) = drop (Z.to_nat a) p.
Proof.
  unfold slice, len. intros Ha.
  rewrite drop_app_le by lia. rewrite take_app_le by (rewrite length_drop; lia).
  apply take_ge. rewrite length_drop. lia.
Qed.

Lemma row_ok_snoc (p : list byte) (b : byte) (line : LineInfo) :
  row_ok p line → row_ok (p ++ [b]) line.
Proof.
  unfold row_ok, row_text. intros (Hse & He & Hnl & Hno & Hind).
  rewrite slice_snoc by lia. rewrite len_app.
  repeat split; try done; try lia.
  - change (len [b]) with 1. lia.
  - rewrite lookup_app_l; [done |]. unfold len in He. lia.
Qed.

(** One iteration of the loop, field by field. *)
Lemma SetSource_step_eq (st : scan) (b : byte) :
  SetSource_step st b
  = let fresh := bool_decide (scan_prevLine st ≠ scan_currentLine st) in
    let found0 := if fresh then false else scan_foundChar st in
    let ind0 := if fresh then 0 else indentation (scan_lineInfo st) in
    let info :=
      {| start := if fresh then scan_i st else start (scan_lineInfo st);
         end_ := if bool_decide (b = newline) then scan_i st
                 else if fresh then scan_i st else end_ (scan_lineInfo st);
         indentation :=
           if found0 then ind0
           else if bool_decide (b = tab) then Int.add ind0 4
           else if bool_decide (b = space) then Int.add ind0 1
           else ind0 |} in
    {| scan_lines :=
         if bool_decide (b = newline)
         then <[scan_currentLine st := info]> (scan_lines st)
         else scan_lines st;
       scan_i := Int.add (scan_i st) 1;
       scan_prevLine := scan_currentLine st;
       scan_currentLine :=
         if bool_decide (b = newline) then Int.add (scan_currentLine st) 1
         else scan_currentLine st;
       scan_foundChar := found0 || negb (is_indent b);
       scan_lineInfo := info |}.
Proof.
  destruct st as [lines i prevLine currentLine foundChar [s0 e0 n0]].
  unfold SetSource_step, is_indent, set_indentation, set_end.
  cbn [scan_lines scan_i scan_prevLine scan_currentLine scan_foundChar
       scan_lineInfo start end_ indentation].
  destruct (decide (prevLine = currentLine)) as [->|Hfresh].
  - rewrite (bool_decide_eq_false_2 (currentLine ≠ currentLine)) by auto.
    destruct foundChar; repeat case_bool_decide; subst; done.
  - rewrite (bool_decide_eq_true_2 (prevLine ≠ currentLine)) by done.
    repeat case_bool_decide; subst; done.
Qed.

(** The row being read, whether or not the loop has entered it yet. *)
Lemma scan_inv_current (p : list byte) (st : scan) (rs : Z) :
  scan_inv p st rs →
  let fresh := bool_decide (scan_prevLine st ≠ scan_currentLine st) in
  (if fresh then scan_i st else start (scan_lineInfo st)) = rs
  ∧ (if fresh then 0 else indentation (scan_lineInfo st))
    = indent_width (leading_whitespace (drop (Z.to_nat rs) p))
  ∧ (if fresh then false else scan_foundChar st)
    = negb (forallb is_indent (drop (Z.to_nat rs) p)).
Proof.
  intros [Hi _ _ _ _ _ _ Hrs _ _ _ Hcur]. cbn zeta.
  destruct (decide (scan_prevLine st = scan_currentLine st)) as [Heq|Hne].
  - rewrite bool_decide_eq_true_2 in Hcur by done.
    rewrite bool_decide_eq_false_2 by auto. tauto.
  - rewrite bool_decide_eq_false_2 in Hcur by done.
    rewrite bool_decide_eq_true_2 by done. subst rs.
    unfold len. rewrite Nat2Z.id, drop_all. by rewrite Hi.
Qed.

Lemma scan_inv_init : scan_inv [] scan_init 0.
Proof.
  split; cbn; try done.
  - intros r. rewrite lookup_empty. split; [by intros [? ?] | lia].
  - intros Hin. inversion Hin.
Qed.

(** The invariant holds through one more byte. *)
Lemma scan_inv_step (p : list byte) (st : scan) (rs : Z) (b : byte) :
  scan_inv p st rs →
  4 * len (p ++ [b]) ≤ Int.max_int →
  scan_inv (p ++ [b]) (SetSource_step st b)
    (if bool_decide (b = newline) then len p + 1 else rs).
Proof.
  intros Hinv Hmax.
  destruct (scan_inv_current p st rs Hinv) as (Hstart & Hind & Hfound).
  destruct Hinv as [Hi Hcount Hsize Hrows Hok Hfirst Hnext Hrs Hrs0 Hrs1 Hopen _].
  rewrite SetSource_step_eq. cbn zeta.
  rewrite Hstart, Hind, Hfound. clear Hstart Hind Hfound.
  rewrite len_app in Hmax. change (len [b]) with 1 in Hmax.
  pose proof (len_nonneg p) as Hp.
  set (text := drop (Z.to_nat rs) p) in *.
  assert (Htext : drop (Z.to_nat rs) (p ++ [b]) = text ++ [b]).
  { unfold len in Hrs. rewrite drop_app_le by lia. done. }
  assert (Hlen_text : len text ≤ len p).
  { unfold text, len. rewrite length_drop. lia. }
  pose proof (leading_indent_bounds text) as Hwidth.
  (* the indentation after this byte *)
  set (ind1 := if negb (forallb is_indent text) then _ else _).
  assert (Hind1 : ind1 = indent_width (leading_whitespace (text ++ [b]))).
  { unfold ind1. rewrite leading_indent_snoc.
    destruct (forallb is_indent text); cbn [negb andb]; [| lia].
    unfold is_indent, indent_of.
    repeat case_bool_decide; cbn [orb]; try lia.
    all: rewrite IntFacts.add_id; [lia |]; int_bounds; lia. }
  clearbody ind1.
  assert (Hfound1 : negb (forallb is_indent text) || negb (is_indent b)
                    = negb (forallb is_indent (text ++ [b]))).
  { rewrite forallb_app. cbn [forallb]. rewrite andb_true_r.
    by destruct (forallb is_indent text), (is_indent b). }
  rewrite Hfound1. clear Hfound1.
  rewrite Hi. rewrite (IntFacts.add_id (len p) 1) by (int_bounds; lia).
  case_bool_decide as Hb.
  - (* a newline commits the row *)
    subst b.
    rewrite (IntFacts.add_id (scan_currentLine st) 1) by (int_bounds; lia).
    set (info := {| start := rs; end_ := len p; indentation := ind1 |}).
    assert (Hfree : scan_lines st !! scan_currentLine st = None).
    { apply eq_None_not_Some. rewrite Hrows. lia. }
    assert (Hinfo : row_ok (p ++ [newline]) info).
    { unfold row_ok, row_text. cbn [start end_ indentation info].
      rewrite slice_to_end by lia. fold text.
      rewrite len_app. change (len [newline]) with 1.
      repeat split; try lia.
      - unfold len. rewrite Nat2Z.id. by apply list_lookup_middle.
      - done.
      - rewrite Hind1, leading_indent_snoc, is_indent_newline, andb_false_r. lia. }
    split; cbn [scan_lines scan_i scan_prevLine scan_currentLine
                scan_foundChar scan_lineInfo].
    + rewrite len_app. done.
    + rewrite len_app. change (len [newline]) with 1. lia.
    + unfold len_lines in *. rewrite map_size_insert_None by done. lia.
    + intros r. rewrite lookup_insert. case_decide as Hr.
      * subst r. split; [lia | by eauto].
      * rewrite Hrows. lia.
    + intros r line. rewrite lookup_insert. case_decide as Hr.
      * by intros [= <-].
      * intros Hl. by eapply row_ok_snoc, Hok.
    + intros line. rewrite lookup_insert. case_decide as Hr.
      * intros [= <-]. cbn. apply Hrs0. done.
      * apply Hfirst.
    + intros r a b'. rewrite !lookup_insert.
      case_decide as Hr; case_decide as Hr'; try lia.
      * subst r. intros _ Hsome.
        assert (is_Some (scan_lines st !! (scan_currentLine st + 1))) as Hs by eauto.
        apply Hrows in Hs. lia.
      * intros Ha [= <-]. cbn. apply Hrs1.
        by replace (scan_currentLine st - 1) with r by lia.
      * apply Hnext.
    + rewrite len_app. change (len [newline]) with 1. lia.
    + lia.
    + intros line. replace (scan_currentLine st + 1 - 1) with (scan_currentLine st) by lia.
      rewrite lookup_insert_eq. by intros [= <-].
    + unfold len. rewrite drop_ge; [apply not_elem_of_nil |].
      rewrite length_app. cbn. lia.
    + rewrite bool_decide_eq_false_2 by lia. by rewrite len_app.
  - (* any other byte extends the row *)
    split; cbn [scan_lines scan_i scan_prevLine scan_currentLine
                scan_foundChar scan_lineInfo start end_ indentation].
    + by rewrite len_app.
    + rewrite len_app. change (len [b]) with 1. lia.
    + done.
    + done.
    + intros r line Hl. by eapply row_ok_snoc, Hok.
    + done.
    + done.
    + rewrite len_app. change (len [b]) with 1. lia.
    + done.
    + done.
    + rewrite Htext. rewrite not_elem_of_app. split; [done |].
      rewrite list_elem_of_singleton. congruence.
    + rewrite bool_decide_eq_true_2 by done.
      rewrite len_app, Htext. change (len [b]) with 1.
      repeat split; try done. lia.
Qed.

Lemma rows_end_snoc (p : list byte) (b : byte) (i rs : Z) :
  rows_end (p ++ [b]) i rs
  = if bool_decide (b = newline) then i + len p + 1 else rows_end p i rs.
Proof.
  revert i rs. induction p as [|a p IH]; intros i rs; cbn [app rows_end].
  - case_bool_decide; [| done]. change (len []) with 0. lia.
  - rewrite IH. case_bool_decide; [| done].
    unfold len. cbn [length]. lia.
Qed.

Lemma SetSource_scan_snoc (p : list byte) (b : byte) :
  SetSource_scan (p ++ [b]) = SetSource_step (SetSource_scan p) b.
Proof. unfold SetSource_scan. by rewrite fold_left_app. Qed.

(** The invariant holds when the loop ends. *)
Lemma SetSource_scan_inv (p : list byte) :
  4 * len p ≤ Int.max_int → scan_inv p (SetSource_scan p) (tiled p).
Proof.
  induction p as [|b p IH] using rev_ind; intros Hmax.
  - apply scan_inv_init.
  - rewrite SetSource_scan_snoc. unfold tiled. rewrite rows_end_snoc.
    replace (0 + len p + 1) with (len p + 1) by lia.
    apply scan_inv_step; [| done]. apply IH.
    rewrite len_app in Hmax. pose proof (len_nonneg [b]). lia.
Qed.

(** The rows are numbered from 0 without gaps. *)
Lemma SetSource_rows_dense (s : SourceCode) (source : list byte) (row : Z) :
  4 * len source ≤ Int.max_int →
  is_Some (lines (SetSource s source) !! row)
  ↔ 0 ≤ row < len_lines (lines (SetSource s source)).
Proof.
  intros Hmax. destruct (SetSource_scan_inv source Hmax)
    as [Hi Hcount Hsize Hrows Hok Hfirst Hnext Hrs Hrs0 Hrs1 Hopen Hcur].
  cbn [lines SetSource]. rewrite Hsize. apply Hrows.
Qed.

Lemma tiled_bounds (p : list byte) : 0 ≤ tiled p ≤ len p.
Proof.
  induction p as [|b p IH] using rev_ind; [done |].
  unfold tiled in *. rewrite rows_end_snoc, len_app. change (len [b]) with 1.
  case_bool_decide; lia.
Qed.

(** The data is tiled to its end when it is empty or ends in a newline, and
    only then. *)
Lemma tiled_all (p : list byte) :
  tiled p = len p ↔ p = [] ∨ last p = Some newline.
Proof.
  destruct p as [|b p _] using rev_ind; [by split; auto |].
  unfold tiled. rewrite rows_end_snoc, len_app, last_snoc.
  change (len [b]) with 1. pose proof (tiled_bounds p) as Hb. unfold tiled in Hb.
  case_bool_decide as Hnl.
  - subst. split; [auto | lia].
  - split; [lia |]. intros [Hnil | [= ->]]; [| done].
    by destruct p.
Qed.

(** The rows [SetSource] commits tile the data from offset 0 to the offset
    after its last newline: each is a stretch free of newlines that a
    newline ends, the first starts at 0, each next one starts after the
    end of the one before, and the last ends where the tiling ends. *)
Lemma SetSource_rows_tile (s : SourceCode) (source : list byte) :
  4 * len source ≤ Int.max_int →
  (∀ row line, lines (SetSource s source) !! row = Some line →
               row_ok source line)
  ∧ (∀ line, lines (SetSource s source) !! 0 = Some line → start line = 0)
  ∧ (∀ row a b,
       lines (SetSource s source) !! row = Some a →
       lines (SetSource s source) !! (row + 1) = Some b →
       start b = end_ a + 1)
  ∧ (len_lines (lines (SetSource s source)) = 0 → tiled source = 0)
  ∧ (∀ line,
       lines (SetSource s source)
         !! (len_lines (lines (SetSource s source)) - 1) = Some line →
       end_ line + 1 = tiled source).
Proof.
  intros Hmax. destruct (SetSource_scan_inv source Hmax)
    as [Hi Hcount Hsize Hrows Hok Hfirst Hnext Hrs Hrs0 Hrs1 Hopen Hcur].
  cbn [lines SetSource]. rewrite Hsize.
  refine (conj Hok (conj Hfirst (conj Hnext (conj Hrs0 _)))).
  intros line Hl. symmetry. by apply Hrs1.
Qed.

(** A last line that no newline ends is in no row: the rows are those of
    the data without its last byte. *)
Lemma SetSource_unterminated (s : SourceCode) (p : list byte) (b : byte) :
  b ≠ newline →
  lines (SetSource s (p ++ [b])) = lines (SetSource s p).
Proof.
  intros Hb. cbn [lines SetSource].
  rewrite SetSource_scan_snoc, SetSource_step_eq. cbn zeta.
  cbn [scan_lines]. by rewrite bool_decide_eq_false_2.
Qed.

Lemma SetSource_unterminated_uncovered
    (s : SourceCode) (p : list byte) (b : byte) (row : Z) (line : LineInfo) :
  4 * len p ≤ Int.max_int →
  b ≠ newline →
  lines (SetSource s (p ++ [b])) !! row = Some line →
  end_ line < len (p ++ [b]) - 1.
Proof.
  intros Hmax Hb. rewrite SetSource_unterminated by done. intros Hl.
  destruct (SetSource_scan_inv p Hmax)
    as [Hi Hcount Hsize Hrows Hok Hfirst Hnext Hrs Hrs0 Hrs1 Hopen Hcur].
  destruct (Hok row line Hl) as (_ & He & _).
  rewrite len_app. change (len [b]) with 1. lia.
Qed.

(** C7.  Every row [SetSource] commits is indented by four columns for each
    tab and one for each space of the run of tabs and spaces its text
    starts with, a run the first other byte ends for good. *)
Theorem SetSource_indentation
    (s : SourceCode) (source : list byte) (row : Z) (line : LineInfo) :
  4 * len source ≤ Int.max_int →
  lines (SetSource s source) !! row = Some line →
  indentation line
  = 4 * count_byte tab (leading_whitespace (row_text source line))
    + 1 * count_byte space (leading_whitespace (row_text source line)).
Proof.
  intros Hmax Hl. destruct (SetSource_scan_inv source Hmax)
    as [Hi Hcount Hsize Hrows Hok Hfirst Hnext Hrs Hrs0 Hrs1 Hopen Hcur].
  by destruct (Hok row line Hl) as (_ & _ & _ & _ & Hind).
Qed.

Lemma SetSource_indentation_witness :
  lines (SetSource SourceCode_zero [x20; x20; x78; x0a]) !! 0
  = Some (mkLineInfo 0 3 2)
  ∧ 2 = 4 * count_byte tab (leading_whitespace [x20; x20; x78])
        + 1 * count_byte space (leading_whitespace [x20; x20; x78]).
Proof.
  assert (Hl : lines (SetSource SourceCode_zero [x20; x20; x78; x0a]) !! 0
               = Some (mkLineInfo 0 3 2)) by (vm_compute; reflexivity).
  split; [exact Hl |].
  refine (SetSource_indentation SourceCode_zero [x20; x20; x78; x0a] 0
            (mkLineInfo 0 3 2) _ Hl).
  vm_compute. discriminate.
Defined.

(** A row past the last one committed has no entry: a click there is a
    click on a missing row. *)
Lemma SetSource_row_missing (s : SourceCode) (source : list byte) (row : Z) :
  4 * len source ≤ Int.max_int →
  len_lines (lines (SetSource s source)) ≤ row →
  lines (SetSource s source) !! row = None.
Proof.
  intros Hmax Hrow. apply eq_None_not_Some.
  rewrite SetSource_rows_dense by done. lia.
Qed.

(** The rows of the file of the lines [a] and [bb], and its colours. *)
Example SetSource_a_bb :
  lines (SetSource SourceCode_zero [x61; x0a; x62; x62; x0a])
  = {[ 0 := mkLineInfo 0 1 0; 1 := mkLineInfo 2 4 0 ]}
  ∧ len (colors (SetSource SourceCode_zero [x61; x0a; x62; x62; x0a])) = 5.
Proof. vm_compute. split; reflexivity. Qed.

(** C2.  The rows of [SetSource] do not cover data whose last line has no
    newline: the file [ab] gets no row at all, and in the file of [a],
    newline, [b] the only row is that of [a], so that no row holds the
    byte [b] at offset 2.  No row is made up at the end of the scan.  The
    empty file has no rows. *)
Theorem SetSource_drops_unterminated_line :
  lines (SetSource SourceCode_zero [x61; x62]) = ∅
  ∧ lines (SetSource SourceCode_zero [x61; x0a; x62])
    = {[ 0 := mkLineInfo 0 1 0 ]}
  ∧ lines (SetSource SourceCode_zero []) = ∅.
Proof. vm_compute. repeat split; reflexivity. Qed.

(** * More of the package *)

(** ** [clamp] and the cursor moves *)

(** X1.  [clamp] keeps its word: when [low < high] the result lies in
    [low, high) and a value already there is returned as it is; when the
    range is empty the result is [low].  Clamping twice is clamping once. *)
Theorem clamp_limits (val low high : Z) :
  Int.in_range (high - 1) →
  (low < high →
   low ≤ clamp val low high < high
   ∧ (low ≤ val < high → clamp val low high = val))
  ∧ (high ≤ low → clamp val low high = low)
  ∧ clamp (clamp val low high) low high = clamp val low high.
Proof.
  intros Hh. rewrite !clamp_exact by done. lia.
Qed.

Lemma clamp_limits_witness :
  Int.in_range (5 - 1)
  ∧ (2 ≤ clamp 9 2 5 < 5) ∧ clamp 3 2 5 = 3 ∧ clamp 9 5 2 = 5.
Proof.
  assert (H1 : Int.in_range (5 - 1)) by (vm_compute; split; discriminate).
  assert (H2 : Int.in_range (2 - 1)) by (vm_compute; split; discriminate).
  split; [exact H1 |].
  pose proof (clamp_limits 9 2 5 H1) as (Ha & _ & _).
  pose proof (clamp_limits 3 2 5 H1) as (Hb & _ & _).
  pose proof (clamp_limits 9 5 2 H2) as (_ & Hc & _).
  split; [apply Ha; lia |]. split; [apply Hb; lia | apply Hc; lia].
Defined.

Lemma set_cursor_same (s : SourceCode) : set_cursor s (cursor s) = s.
Proof. by destruct s. Qed.

Lemma set_cursor_twice (s : SourceCode) (c1 c2 : Z) :
  set_cursor (set_cursor s c1) c2 = set_cursor s c2.
Proof. done. Qed.

(** X2.  Inside the data a step right and a step left undo each other:
    from a cursor with a byte to its right, right then left gives back the
    state, and from a cursor with a byte to its left that is not past the
    last byte, left then right does. *)
Theorem cursor_left_right_round_trip (s : SourceCode) :
  Int.in_range (len (data s)) →
  (0 ≤ cursor s ≤ len (data s) - 2 → cursorLeft (cursorRight s 1) 1 = s)
  ∧ (1 ≤ cursor s ≤ len (data s) - 1 → cursorRight (cursorLeft s 1) 1 = s).
Proof.
  intros Hl. split; intros Hc.
  - unfold cursorLeft at 1. rewrite cursorRight_one by done.
    unfold cursorRight. cbn [data set_cursor]. rewrite set_cursor_twice.
    rewrite clamp_exact, IntFacts.sub_id by (int_bounds; lia).
    replace (Z.max 0 _) with (cursor s) by lia. apply set_cursor_same.
  - unfold cursorRight at 1. rewrite cursorLeft_one by (done || lia).
    unfold cursorLeft. cbn [data set_cursor]. rewrite set_cursor_twice.
    rewrite clamp_exact, IntFacts.add_id by (int_bounds; lia).
    replace (Z.max 0 _) with (cursor s) by lia. apply set_cursor_same.
Qed.

Lemma cursor_left_right_round_trip_witness :
  cursorLeft (cursorRight source_a_b 1) 1 = source_a_b.
Proof.
  refine (proj1 (cursor_left_right_round_trip source_a_b _) _).
  - vm_compute. split; discriminate.
  - vm_compute. split; discriminate.
Defined.

(** X3.  The moves stop at the ends: a step left at offset 0 and a step
    right on the last byte leave the state as it is, so the cursor never
    comes to rest past the last byte; and on empty data every move, from
    any cursor and by any step, puts the cursor on 0. *)
Theorem cursor_stops_at_ends (s : SourceCode) (n : Z) :
  Int.in_range (len (data s)) →
  (cursor s = 0 → cursorLeft s 1 = s)
  ∧ (0 ≤ cursor s → cursor s = len (data s) - 1 → cursorRight s 1 = s)
  ∧ (data s = [] → cursor (cursorLeft s n) = 0 ∧ cursor (cursorRight s n) = 0).
Proof.
  intros Hl. pose proof (len_nonneg (data s)) as Hn.
  split; [| split; [| intros Hd; split]].
  - intros Hc. unfold cursorLeft.
    rewrite clamp_exact, IntFacts.sub_id by (int_bounds; lia).
    replace (Z.max 0 _) with (cursor s) by lia. apply set_cursor_same.
  - intros Hc0 Hc. unfold cursorRight.
    rewrite clamp_exact, IntFacts.add_id by (int_bounds; lia).
    replace (Z.max 0 _) with (cursor s) by lia. apply set_cursor_same.
  - pose proof (clamp_in_data (Int.sub (cursor s) n) (data s)) as Hc.
    cbn [cursor cursorLeft set_cursor]. rewrite Hd in *.
    change (len (@nil byte)) with 0 in *. lia.
  - pose proof (clamp_in_data (Int.add (cursor s) n) (data s)) as Hc.
    cbn [cursor cursorRight set_cursor]. rewrite Hd in *.
    change (len (@nil byte)) with 0 in *. lia.
Qed.

Lemma cursor_stops_at_ends_witness :
  cursorLeft source_a_b 1 = source_a_b
  ∧ cursorRight (set_cursor source_a_b 4) 1 = set_cursor source_a_b 4.
Proof.
  assert (H : Int.in_range (len (data source_a_b)))
    by (vm_compute; split; discriminate).
  split.
  - apply (proj1 (cursor_stops_at_ends source_a_b 1 H)). reflexivity.
  - apply (proj1 (proj2 (cursor_stops_at_ends (set_cursor source_a_b 4) 1 H)));
      [vm_compute; discriminate | reflexivity].
Defined.

(** ** The message handler *)

Lemma set_source_same (m : Model) : set_source m (source m) = m.
Proof. by destruct m. Qed.

(** The tests on the key, which exclude each other, as one cascade. *)
Lemma Update_KeyMsg (m : Model) (key : string) :
  Update m (KeyMsg key)
  = if bool_decide (key = "ctrl+u"%string)
    then m' ← scroll m (λ o, Int.sub o (Int.quot (height (viewport m)) 2));
         mret (m', [CmdNil])
    else if bool_decide (key = "ctrl+d"%string)
    then m' ← scroll m (λ o, Int.add o (Int.quot (height (viewport m)) 2));
         mret (m', [CmdNil])
    else if bool_decide (key = "l"%string)
    then s ← deref (source m);
         mret (set_source m (Some (cursorRight s 1)), [CmdNil])
    else if bool_decide (key = "h"%string)
    then s ← deref (source m);
         mret (set_source m (Some (cursorLeft s 1)), [CmdNil])
    else Returned (m, [CmdNil]).
Proof.
  unfold Update.
  destruct (decide (key = "ctrl+u"%string)) as [->|Hu].
  { key_cases. unfold scroll. destruct (source m); cbn; [| done]. by key_cases. }
  rewrite (bool_decide_eq_false_2 _ Hu). cbn [mbind outcome_bind mret outcome_ret].
  destruct (decide (key = "ctrl+d"%string)) as [->|Hd].
  { key_cases. unfold scroll. destruct (source m); cbn; [| done]. by key_cases. }
  rewrite (bool_decide_eq_false_2 _ Hd). cbn [mbind outcome_bind mret outcome_ret].
  destruct (decide (key = "j"%string)) as [->|Hj].
  { key_cases. by destruct m as [? ? ? ? ? [s|] ?]. }
  rewrite (bool_decide_eq_false_2 _ Hj). cbn [mbind outcome_bind mret outcome_ret].
  destruct (decide (key = "k"%string)) as [->|Hk].
  { key_cases. by destruct m as [? ? ? ? ? [s|] ?]. }
  rewrite (bool_decide_eq_false_2 _ Hk). cbn [mbind outcome_bind mret outcome_ret].
  destruct (decide (key = "l"%string)) as [->|Hl].
  { key_cases. destruct (source m); cbn; [| done]. by key_cases. }
  rewrite (bool_decide_eq_false_2 _ Hl). cbn [mbind outcome_bind mret outcome_ret].
  destruct (decide (key = "h"%string)) as [->|Hh].
  { key_cases. by destruct (source m). }
  by rewrite (bool_decide_eq_false_2 _ Hh).
Qed.

Lemma scroll_eq (m : Model) (val : Z → Z) :
  scroll m val
  = match source m with
    | Some s =>
        Returned
          (set_offset m
             (clamp (val (offset (viewport m))) 0
                (Int.add (Int.sub (len_lines (lines s)) (height (viewport m))) 2)))
    | None => Panicked NilDereference
    end.
Proof. unfold scroll. by destruct (source m). Qed.

Lemma bool_decide_elem_of_cons (x a : string) (l : list string) :
  bool_decide (x ∈ a :: l) = bool_decide (x = a) || bool_decide (x ∈ l).
Proof.
  rewrite <- bool_decide_or. apply bool_decide_ext, elem_of_cons.
Qed.

Lemma bool_decide_elem_of_nil (x : string) : bool_decide (x ∈ @nil string) = false.
Proof. apply bool_decide_eq_false_2, not_elem_of_nil. Qed.

(** Unfolds a test of membership in a list of keys. *)
Ltac key_member :=
  rewrite ?bool_decide_elem_of_cons, ?bool_decide_elem_of_nil, ?orb_false_r.

(** X4.  [Update] stops the program exactly when there is no buffer and the
    message is one whose handling reads or writes it: half a page up or
    down, a step left or right, the wheel, a left click or a parse
    completion.  Without a buffer, resizing, "j", "k", any other key or
    button and any other message are handled. *)
Theorem Update_crashes_without_buffer (m : Model) (msg : Msg) :
  crashes (Update m msg) ↔ source m = None ∧ needs_buffer msg = true.
Proof.
  destruct msg as [w h | key | button X Y | t | n |]; cbn [needs_buffer].
  - cbn. split; [done | by intros [_ ?]].
  - rewrite Update_KeyMsg, !scroll_eq. key_member.
    repeat case_bool_decide; subst; destruct (source m) eqn:Hs; cbn;
      split; try done; by intros [? ?].
  - unfold Update. rewrite !scroll_eq.
    destruct button, (source m); cbn; split; try done; by intros [? ?].
  - unfold Update. destruct (source m); cbn; split; try done; by intros [? ?].
  - cbn. split; [done | by intros [_ ?]].
  - cbn. split; [done | by intros [_ ?]].
Qed.

Lemma set_ready_resize (m : Model) (Width Height : Z) :
  (if negb (ready m)
   then set_ready
          (set_viewport m
             {| offset := 0; height := Int.sub Height 2; width := Width |})
          true
   else set_viewport m
          {| offset := offset (viewport m);
             height := Int.sub Height 2; width := Width |})
  = set_ready
      (set_viewport m
         {| offset := if ready m then offset (viewport m) else 0;
            width := Width; height := Int.sub Height 2 |})
      true.
Proof. by destruct m as [? ? ? ? [] ? ?]. Qed.

(** Every message [Update] returns from is handled in one of six ways. *)
Lemma Update_handled (m : Model) (msg : Msg) (m' : Model) (cmds : list Cmd) :
  Update m msg = Returned (m', cmds) → handled m msg m'.
Proof.
  destruct msg as [w h | key | button X Y | t | n |].
  - cbn. rewrite set_ready_resize. intros [= <- <-]. constructor.
  - rewrite Update_KeyMsg, !scroll_eq.
    repeat case_bool_decide; subst; destruct (source m) as [s|] eqn:Hs; cbn;
      try done; intros [= <- <-].
    all: try (by eapply handled_scroll).
    all: try (by eapply handled_move).
    all: apply handled_inert; cbn; key_member;
      by rewrite !bool_decide_eq_false_2.
  - unfold Update. rewrite !scroll_eq.
    destruct button, (source m) as [s|] eqn:Hs; cbn; try done;
      intros [= <- <-].
    all: try (by apply handled_inert).
    all: try (by eapply handled_scroll).
    all: by eapply handled_click.
  - unfold Update. destruct (source m) as [s|] eqn:Hs; cbn; [| done].
    intros [= <- <-]. by apply handled_reload.
  - cbn. intros [= <- <-]. by apply handled_inert.
  - cbn. intros [= <- <-]. by apply handled_inert.
Qed.

Lemma handled_frame (m : Model) (msg : Msg) (m' : Model) :
  handled m msg m' →
  Path m' = Path m ∧ fd m' = fd m ∧ Focused m' = Focused m
  ∧ modified m' = modified m
  ∧ (ready m = true → ready m' = true)
  ∧ data <$> source m' = data <$> source m
  ∧ lines <$> source m' = lines <$> source m
  ∧ (is_TreeReload msg = false →
     colors <$> source m' = colors <$> source m
     ∧ tree <$> source m' = tree <$> source m)
  ∧ (moves_cursor msg = false → cursor <$> source m' = cursor <$> source m)
  ∧ (moves_viewport msg = false → viewport m' = viewport m).
Proof.
  intros [msg0 Hb Hv | w h | s msg0 val Hs Hv Hc Ht | s msg0 val Hs Hc Hv Ht
         | s X Y row x Hs | s t Hs]; cbn; rewrite ?Hs; cbn;
    repeat split; try done; congruence.
Qed.

(** X5.  What a message may change: no message changes the path, the file,
    the focus or the modified flag, the data or the lines, nor makes a
    buffer of none or takes one away, nor unsets [ready]; only a parse
    completion changes colors and tree; only "h", "l" and a left click
    change the cursor; only a resize, half a page up or down and the wheel
    change the viewport. *)
Theorem Update_frame (m : Model) (msg : Msg) (m' : Model) (cmds : list Cmd) :
  Update m msg = Returned (m', cmds) →
  Path m' = Path m ∧ fd m' = fd m ∧ Focused m' = Focused m
  ∧ modified m' = modified m
  ∧ (ready m = true → ready m' = true)
  ∧ data <$> source m' = data <$> source m
  ∧ lines <$> source m' = lines <$> source m
  ∧ (is_TreeReload msg = false →
     colors <$> source m' = colors <$> source m
     ∧ tree <$> source m' = tree <$> source m)
  ∧ (moves_cursor msg = false → cursor <$> source m' = cursor <$> source m)
  ∧ (moves_viewport msg = false → viewport m' = viewport m).
Proof. intros H%Update_handled. by apply handled_frame. Qed.

Lemma Update_frame_witness :
  Update (Model_of source_a_b) (KeyMsg "l")
  = Returned (set_source (Model_of source_a_b)
                (Some (set_cursor source_a_b 1)), [CmdNil])
  ∧ viewport (set_source (Model_of source_a_b) (Some (set_cursor source_a_b 1)))
    = viewport (Model_of source_a_b).
Proof.
  assert (H : Update (Model_of source_a_b) (KeyMsg "l")
              = Returned (set_source (Model_of source_a_b)
                            (Some (set_cursor source_a_b 1)), [CmdNil]))
    by reflexivity.
  split; [exact H |].
  destruct (Update_frame _ _ _ _ H) as (_ & _ & _ & _ & _ & _ & _ & _ & _ & Hv).
  apply Hv. reflexivity.
Defined.

Lemma Updates_cons (m : Model) (msg : Msg) (msgs : list Msg) :
  Updates m (msg :: msgs)
  = match Update m msg with
    | Returned (m', _) => Updates m' msgs
    | Panicked p => Panicked p
    end.
Proof.
  unfold Updates. cbn [range_over].
  by destruct (Update m msg) as [[m' cmds]|].
Qed.

(** An invariant of every handled message is an invariant of every run. *)
Lemma Updates_ind (P : Model → Prop) :
  (∀ m msg m', P m → handled m msg m' → P m') →
  ∀ msgs m m', P m → Updates m msgs = Returned m' → P m'.
Proof.
  intros Hstep. induction msgs as [|msg msgs IH]; intros m m' Hm.
  - cbn. by intros [= <-].
  - rewrite Updates_cons.
    destruct (Update m msg) as [[m1 cmds]|] eqn:Hu; [| done].
    apply IH. eapply Hstep; [done |]. by eapply Update_handled.
Qed.

(** X6.  Through any run of messages the model keeps its path, its file,
    its focus and its modified flag, and the buffer its data and its lines;
    a model that is ready stays ready, and a model with a buffer keeps
    one. *)
Theorem Updates_keep_file_and_data (m : Model) (msgs : list Msg) (m' : Model) :
  Updates m msgs = Returned m' →
  Path m' = Path m ∧ fd m' = fd m ∧ Focused m' = Focused m
  ∧ modified m' = modified m
  ∧ (ready m = true → ready m' = true)
  ∧ data <$> source m' = data <$> source m
  ∧ lines <$> source m' = lines <$> source m.
Proof.
  apply (Updates_ind (λ m', Path m' = Path m ∧ fd m' = fd m
                            ∧ Focused m' = Focused m ∧ modified m' = modified m
                            ∧ (ready m = true → ready m' = true)
                            ∧ data <$> source m' = data <$> source m
                            ∧ lines <$> source m' = lines <$> source m));
    [| done].
  intros m1 msg m2 (HP & Hf & HF & Hm & Hr & Hd & Hl) Hh.
  destruct (handled_frame _ _ _ Hh) as (HP' & Hf' & HF' & Hm' & Hr' & Hd' & Hl' & _).
  repeat split; try congruence. auto.
Qed.

Lemma Updates_keep_file_and_data_witness :
  Updates (Model_of source_a_b)
    [KeyMsg "l"; MouseMsg MouseButtonLeft 8 1; WindowSizeMsg 100 40;
     KeyMsg "ctrl+d"]
  = Returned
      {| Path := "main.go"; fd := Some 3%N; Focused := true; modified := false;
         ready := true; source := Some (set_cursor source_a_b 3);
         viewport := {| offset := 0; width := 100; height := 38 |} |}
  ∧ data <$> Some (set_cursor source_a_b 3) = data <$> Some source_a_b.
Proof.
  assert (H : Updates (Model_of source_a_b)
                [KeyMsg "l"; MouseMsg MouseButtonLeft 8 1; WindowSizeMsg 100 40;
                 KeyMsg "ctrl+d"]
              = Returned
                  {| Path := "main.go"; fd := Some 3%N; Focused := true;
                     modified := false; ready := true;
                     source := Some (set_cursor source_a_b 3);
                     viewport := {| offset := 0; width := 100; height := 38 |} |})
    by (vm_compute; reflexivity).
  split; [exact H |].
  exact (proj1 (proj2 (proj2 (proj2 (proj2 (proj2
           (Updates_keep_file_and_data _ _ _ H))))))).
Defined.

(** X7.  Through any run of messages the first visible row stays at or
    below row 0 of the file: an offset that is not negative never becomes
    negative, whatever the sizes, keys and clicks. *)
Theorem Updates_offset_nonnegative (m : Model) (msgs : list Msg) (m' : Model) :
  0 ≤ offset (viewport m) →
  Updates m msgs = Returned m' →
  0 ≤ offset (viewport m').
Proof.
  intros Ho. apply (Updates_ind (λ m', 0 ≤ offset (viewport m'))); [| done].
  clear. intros m msg m' Hm
    [msg0 Hb Hv | w h | s msg0 val Hs Hv Hc Ht | s msg0 val Hs Hc Hv Ht
    | s X Y row x Hs | s t Hs]; cbn; try done.
  - by destruct (ready m).
  - apply clamp_low.
Qed.

Lemma Updates_offset_nonnegative_witness :
  0 ≤ offset (viewport (Model_of source_ten_rows))
  ∧ Updates (Model_of source_ten_rows)
      [MouseMsg MouseButtonWheelDown 0 0; KeyMsg "ctrl+u"; KeyMsg "ctrl+u"]
    = Returned (Model_of source_ten_rows)
  ∧ 0 ≤ offset (viewport (Model_of source_ten_rows)).
Proof.
  assert (H0 : 0 ≤ offset (viewport (Model_of source_ten_rows))) by done.
  assert (H : Updates (Model_of source_ten_rows)
                [MouseMsg MouseButtonWheelDown 0 0; KeyMsg "ctrl+u"; KeyMsg "ctrl+u"]
              = Returned (Model_of source_ten_rows)) by (vm_compute; reflexivity).
  split; [exact H0 |]. split; [exact H |].
  exact (Updates_offset_nonnegative _ _ _ H0 H).
Defined.

(** A click lands in the data when the rows lie in it. *)
Lemma click_cursor_in_data (s : SourceCode) (row x : Z) :
  rows_in_data s →
  0 ≤ click_cursor (default LineInfo_zero (lines s !! row)) x
    ≤ Z.max 0 (len (data s) - 1).
Proof.
  intros [Hlen Hrows]. pose proof (len_nonneg (data s)) as Hn.
  destruct (lines s !! row) as [line|] eqn:Hl; cbn [default from_option id].
  - destruct (Hrows row line Hl) as (H0 & Hse & He).
    unfold click_cursor.
    rewrite (IntFacts.add_id (end_ line) 1) by (int_bounds; lia).
    rewrite clamp_exact by (int_bounds; lia). lia.
  - unfold click_cursor. cbn [indentation start end_ LineInfo_zero].
    change (Int.add 0 1) with 1. rewrite clamp_zero_one. lia.
Qed.

(** X8.  In a buffer whose rows lie in its data, the cursor never leaves
    the data: if it is on a byte of the data, or at 0 in empty data, it
    still is after any run of messages, clicks anywhere and parse
    completions included, and the data and the lines are the same. *)
Theorem Updates_cursor_in_data
    (m : Model) (s : SourceCode) (msgs : list Msg) (m' : Model) :
  source m = Some s →
  rows_in_data s →
  cursor_in_data s →
  Updates m msgs = Returned m' →
  ∃ s', source m' = Some s' ∧ data s' = data s ∧ lines s' = lines s
        ∧ cursor_in_data s'.
Proof.
  intros Hs Hrows Hc.
  apply (Updates_ind (λ m', ∃ s', source m' = Some s' ∧ data s' = data s
                                  ∧ lines s' = lines s ∧ cursor_in_data s'));
    [| by exists s].
  clear m m' msgs Hs Hc.
  intros m msg m' (s1 & Hs1 & Hd & Hl & Hc1)
    [msg0 Hb Hv | w h | s2 msg0 val Hs Hv Hc Ht | s2 msg0 val Hs Hc Hv Ht
    | s2 X Y row x Hs | s2 t Hs];
    cbn [source set_source set_offset set_viewport set_ready];
    try (by exists s1); rewrite Hs1 in Hs; injection Hs as <-.
  - eexists. split; [done |]. cbn. do 2 (split; [done |]).
    apply clamp_in_data.
  - eexists. split; [done |]. cbn. do 2 (split; [done |]).
    unfold cursor_in_data. cbn [cursor set_cursor data].
    apply click_cursor_in_data.
    unfold rows_in_data in *. by rewrite Hd, Hl.
  - eexists. split; [done |]. by cbn.
Qed.

Lemma Updates_cursor_in_data_witness :
  ∃ s', source (set_source (Model_of source_a_b) (Some (set_cursor source_a_b 4)))
        = Some s'
        ∧ data s' = data source_a_b ∧ lines s' = lines source_a_b
        ∧ cursor_in_data s'.
Proof.
  apply (Updates_cursor_in_data (Model_of source_a_b) source_a_b
           [MouseMsg MouseButtonLeft 300 1; KeyMsg "l"; KeyMsg "l"]).
  - reflexivity.
  - split; [vm_compute; discriminate |].
    intros row line Hl.
    change (lines source_a_b)
      with ({[ 0 := mkLineInfo 0 1 0; 1 := mkLineInfo 2 4 1 ]} : gmap Z LineInfo) in Hl.
    destruct (decide (row = 0)) as [->|H0].
    { rewrite lookup_insert_eq in Hl. injection Hl as <-. by vm_compute. }
    rewrite lookup_insert_ne in Hl by done.
    destruct (decide (row = 1)) as [->|H1].
    { rewrite lookup_singleton_eq in Hl. injection Hl as <-. by vm_compute. }
    by rewrite lookup_singleton_ne in Hl.
  - by vm_compute.
  - vm_compute. reflexivity.
Defined.

(** ** More of the line index *)

Lemma count_byte_one (a b : byte) :
  count_byte a [b] = if bool_decide (b = a) then 1 else 0.
Proof.
  unfold count_byte. rewrite filter_cons, filter_nil.
  case_bool_decide; [by rewrite decide_True | by rewrite decide_False].
Qed.

Lemma SetSource_scan_count (p : list byte) :
  4 * len p ≤ Int.max_int →
  scan_currentLine (SetSource_scan p) = count_byte newline p.
Proof.
  induction p as [|b p IH] using rev_ind; intros Hmax; [done |].
  rewrite len_app in Hmax. pose proof (len_nonneg [b]) as Hb.
  assert (Hp : 4 * len p ≤ Int.max_int) by lia.
  destruct (SetSource_scan_inv p Hp) as [_ Hcount _ _ _ _ _ _ _ _ _ _].
  rewrite SetSource_scan_snoc, SetSource_step_eq. cbn zeta.
  cbn [scan_currentLine]. rewrite count_byte_app, IH by done.
  rewrite IH in Hcount by done. rewrite count_byte_one.
  change (len [b]) with 1 in Hmax.
  case_bool_decide as Hnl; [| lia].
  rewrite IntFacts.add_id; [done |]. int_bounds. lia.
Qed.

(** X9.  [SetSource] makes one row for each newline of the data and numbers
    the rows from 0 without gaps: there are as many rows as newlines, and
    row [r] exists exactly when [0 ≤ r] and [r] is less than their
    number. *)
Theorem SetSource_row_per_newline (s : SourceCode) (source : list byte) :
  4 * len source ≤ Int.max_int →
  len_lines (lines (SetSource s source)) = count_byte newline source
  ∧ ∀ row, is_Some (lines (SetSource s source) !! row)
           ↔ 0 ≤ row < count_byte newline source.
Proof.
  intros Hmax.
  destruct (SetSource_scan_inv source Hmax) as [_ _ Hsize Hrows _ _ _ _ _ _ _ _].
  cbn [lines SetSource]. rewrite <- (SetSource_scan_count source Hmax).
  by split.
Qed.

Lemma SetSource_row_per_newline_witness :
  len_lines (lines source_a_b) = 2
  ∧ ∀ row, is_Some (lines source_a_b !! row) ↔ 0 ≤ row < 2.
Proof.
  refine (SetSource_row_per_newline SourceCode_zero [x61; x0a; x20; x62; x0a] _).
  vm_compute. discriminate.
Defined.

(** Later rows start after earlier rows end. *)
Lemma rows_ordered (rows : gmap Z LineInfo) (n : Z) :
  (∀ r, is_Some (rows !! r) ↔ 0 ≤ r < n) →
  (∀ r line, rows !! r = Some line → start line ≤ end_ line) →
  (∀ r a b, rows !! r = Some a → rows !! (r + 1) = Some b →
            start b = end_ a + 1) →
  ∀ (d : nat) r a b,
    rows !! r = Some a → rows !! (r + 1 + Z.of_nat d) = Some b →
    end_ a < start b.
Proof.
  intros Hdense Hse Hnext. induction d as [|d IH]; intros r a b Ha Hb.
  - replace (r + 1 + Z.of_nat 0) with (r + 1) in Hb by lia.
    rewrite (Hnext r a b Ha Hb). lia.
  - assert (is_Some (rows !! (r + 1 + Z.of_nat d))) as [c Hc].
    { apply Hdense.
      assert (is_Some (rows !! r)) as Hr%Hdense by eauto.
      assert (is_Some (rows !! (r + 1 + Z.of_nat (S d)))) as Hr'%Hdense by eauto. lia. }
    pose proof (IH r a c Ha Hc).
    replace (r + 1 + Z.of_nat (S d)) with (r + 1 + Z.of_nat d + 1) in Hb by lia.
    rewrite (Hnext _ c b Hc Hb).
    pose proof (Hse _ c Hc). lia.
Qed.

(** Every offset up to the end of a row lies in that row or one before. *)
Lemma rows_cover (rows : gmap Z LineInfo) (n : Z) :
  (∀ r, is_Some (rows !! r) ↔ 0 ≤ r < n) →
  (∀ line, rows !! 0 = Some line → start line = 0) →
  (∀ r a b, rows !! r = Some a → rows !! (r + 1) = Some b →
            start b = end_ a + 1) →
  ∀ (k : nat) last o,
    rows !! Z.of_nat k = Some last → 0 ≤ o ≤ end_ last →
    ∃ r line, rows !! r = Some line ∧ start line ≤ o ≤ end_ line.
Proof.
  intros Hdense Hfirst Hnext. induction k as [|k IH]; intros last o Hlast Ho.
  - exists 0, last. split; [done |]. rewrite (Hfirst last Hlast). lia.
  - assert (is_Some (rows !! Z.of_nat k)) as [prev Hprev].
    { apply Hdense.
      assert (is_Some (rows !! Z.of_nat (S k))) as Hr%Hdense by eauto. lia. }
    destruct (decide (o ≤ end_ prev)) as [Hle|Hgt].
    + apply (IH prev o Hprev). lia.
    + exists (Z.of_nat (S k)), last. split; [done |].
      replace (Z.of_nat (S k)) with (Z.of_nat k + 1) in Hlast by lia.
      rewrite (Hnext _ prev last Hprev Hlast). lia.
Qed.

(** X10.  The rows of [SetSource] part the data from offset 0 to the offset
    after its last newline: every offset before that one lies in the range
    from [start] to [end] of one row and of no other.  That offset is the
    length of the data exactly when the data is empty or ends in a
    newline. *)
Theorem SetSource_rows_partition (s : SourceCode) (source : list byte) :
  4 * len source ≤ Int.max_int →
  (∀ o, 0 ≤ o < tiled source →
        ∃ row line,
          lines (SetSource s source) !! row = Some line
          ∧ start line ≤ o ≤ end_ line
          ∧ ∀ row' line',
              lines (SetSource s source) !! row' = Some line' →
              start line' ≤ o ≤ end_ line' → row' = row)
  ∧ (tiled source = len source ↔ source = [] ∨ last source = Some newline).
Proof.
  intros Hmax. split; [| apply tiled_all].
  destruct (SetSource_scan_inv source Hmax)
    as [_ Hcount Hsize Hdense Hok Hfirst Hnext _ Hrs0 Hrs1 _ _].
  cbn [lines SetSource]. set (rows := scan_lines (SetSource_scan source)) in *.
  set (n := scan_currentLine (SetSource_scan source)) in *.
  assert (Hse : ∀ r line, rows !! r = Some line → start line ≤ end_ line).
  { intros r line Hl. by destruct (Hok r line Hl) as ([_ ?] & _). }
  intros o Ho.
  assert (Hn : 0 < n).
  { destruct (decide (n = 0)) as [H0|]; [| lia]. rewrite (Hrs0 H0) in Ho. lia. }
  assert (is_Some (rows !! (n - 1))) as [last Hlast] by (apply Hdense; lia).
  pose proof (Hrs1 last Hlast) as Hend.
  destruct (rows_cover rows n Hdense Hfirst Hnext (Z.to_nat (n - 1)) last o)
    as (row & line & Hl & Hin).
  { by rewrite Z2Nat.id by lia. }
  { lia. }
  exists row, line. split; [done |]. split; [done |].
  intros row' line' Hl' Hin'.
  destruct (Z.lt_trichotomy row row') as [Hlt | [-> | Hgt]]; [| done |].
  - pose proof (rows_ordered rows n Hdense Hse Hnext
                  (Z.to_nat (row' - row - 1)) row line line' Hl) as Hord.
    rewrite Z2Nat.id in Hord by lia.
    replace (row + 1 + (row' - row - 1)) with row' in Hord by lia.
    specialize (Hord Hl'). lia.
  - pose proof (rows_ordered rows n Hdense Hse Hnext
                  (Z.to_nat (row - row' - 1)) row' line' line Hl') as Hord.
    rewrite Z2Nat.id in Hord by lia.
    replace (row' + 1 + (row - row' - 1)) with row in Hord by lia.
    specialize (Hord Hl). lia.
Qed.

Lemma SetSource_rows_partition_witness :
  ∃ row line,
    lines source_a_b !! row = Some line
    ∧ start line ≤ 3 ≤ end_ line
    ∧ ∀ row' line',
        lines source_a_b !! row' = Some line' →
        start line' ≤ 3 ≤ end_ line' → row' = row.
Proof.
  refine (proj1 (SetSource_rows_partition SourceCode_zero
                   [x61; x0a; x20; x62; x0a] _) 3 _).
  - vm_compute. discriminate.
  - vm_compute. split; [discriminate | reflexivity].
Defined.

(** X11.  Each row of [SetSource] is a line of the data: its [end] is the
    offset of a newline, the bytes from [start] to [end] hold no newline,
    the first row starts at offset 0, and each row after it starts on the
    byte after the newline of the row before. *)
Theorem SetSource_rows_are_lines (s : SourceCode) (source : list byte) :
  4 * len source ≤ Int.max_int →
  (∀ row line, lines (SetSource s source) !! row = Some line →
     0 ≤ start line ≤ end_ line ∧ end_ line < len source
     ∧ source !! Z.to_nat (end_ line) = Some newline
     ∧ newline ∉ row_text source line)
  ∧ (∀ line, lines (SetSource s source) !! 0 = Some line → start line = 0)
  ∧ (∀ row a b,
       lines (SetSource s source) !! row = Some a →
       lines (SetSource s source) !! (row + 1) = Some b →
       start b = end_ a + 1).
Proof.
  intros Hmax.
  destruct (SetSource_scan_inv source Hmax)
    as [_ _ _ _ Hok Hfirst Hnext _ _ _ _ _].
  split; [| by split].
  intros row line Hl. destruct (Hok row line Hl) as (H1 & H2 & H3 & H4 & _).
  done.
Qed.

Lemma SetSource_rows_are_lines_witness :
  lines source_a_b !! 1 = Some (mkLineInfo 2 4 1)
  ∧ [x61; x0a; x20; x62; x0a] !! Z.to_nat 4 = Some newline.
Proof.
  assert (Hl : lines source_a_b !! 1 = Some (mkLineInfo 2 4 1))
    by (vm_compute; reflexivity).
  split; [exact Hl |].
  assert (Hmax : 4 * len [x61; x0a; x20; x62; x0a] ≤ Int.max_int)
    by (vm_compute; discriminate).
  destruct (SetSource_rows_are_lines SourceCode_zero _ Hmax) as (Hrow & _).
  exact (proj1 (proj2 (proj2 (Hrow 1 _ Hl)))).
Defined.

(** What [SetSource] builds has its rows and its cursor in the data. *)
Lemma SetSource_rows_in_data (s : SourceCode) (source : list byte) :
  4 * len source ≤ Int.max_int →
  rows_in_data (SetSource s source) ∧ cursor_in_data (SetSource s source).
Proof.
  intros Hmax. pose proof (len_nonneg source) as Hn.
  destruct (SetSource_scan_inv source Hmax)
    as [_ _ _ _ Hok _ _ _ _ _ _ _].
  split; [split |].
  - cbn. lia.
  - intros row line Hl. destruct (Hok row line Hl) as ([? ?] & ? & _). done.
  - unfold cursor_in_data. cbn. lia.
Qed.

(** ** More of the colour overlay *)

Lemma paint_returns (count : nat) (colors : list byte) (color : byte) (index : nat) :
  (∃ colors', paint colors color index count = Returned colors')
  ↔ (count = 0 ∨ index + count ≤ length colors)%nat.
Proof.
  split.
  - revert colors index. induction count as [|count IH]; intros colors index;
      [by left |].
    cbn [paint]. case_decide as Hlt; [| by intros [? ?]].
    intros Hp%IH. rewrite length_insert in Hp. right. lia.
  - intros H. destruct (paint_spec count colors color index H) as (c' & Hp & _).
    by exists c'.
Qed.

Lemma apply_capture_returns (colors : list byte) (c : Capture) :
  (∃ colors', apply_capture colors c = Returned colors')
  ↔ writes_within (length colors) c.
Proof.
  unfold apply_capture, writes_within. rewrite paint_returns. lia.
Qed.

Lemma apply_captures_returns (cs : list Capture) (colors : list byte) :
  (∃ colors', apply_captures colors cs = Returned colors')
  ↔ Forall (writes_within (length colors)) cs.
Proof.
  unfold apply_captures. revert colors.
  induction cs as [|c cs IH]; intros colors.
  - split; [constructor | by exists colors].
  - rewrite Forall_cons, <- apply_capture_returns. cbn [range_over].
    split.
    + intros [colors' H].
      destruct (apply_capture colors c) as [colors1|] eqn:Hc; [| done].
      split; [by eexists |]. cbn in H.
      apply paint_length in Hc as Hlen. rewrite <- Hlen.
      apply IH. by exists colors'.
    + intros [[colors1 Hc] Hcs]. rewrite Hc. cbn.
      apply paint_length in Hc as Hlen. rewrite <- Hlen in Hcs.
      by apply IH.
Qed.

(** X12.  [GenerateSyntaxTree] returns a message exactly when the extension
    is one of [.go], [.rs] and [.nix], the highlight query of that language
    compiles, and no capture has a range that is not empty and ends past
    the data; in every other case it stops the program. *)
Theorem GenerateSyntaxTree_returns_iff
    (sitter : Sitter) (s : SourceCode) (ext : string) :
  (∃ msg, GenerateSyntaxTree sitter s ext = Returned msg)
  ↔ ∃ lang highlights q,
      grammar sitter ext = Some (lang, highlights)
      ∧ NewQuery sitter highlights lang = inl q
      ∧ Forall (writes_within (length (data s)))
          (concat (Matches sitter q (ParseCtx sitter (data s) lang) (data s))).
Proof.
  rewrite GenerateSyntaxTree_unfold.
  destruct (grammar sitter ext) as [[lang highlights]|];
    [| split; [by intros [? ?] | by intros (? & ? & ? & ? & _)]].
  destruct (NewQuery sitter highlights lang) as [q|err] eqn:Hq.
  - split.
    + intros [msg Hmsg]. exists lang, highlights, q.
      split; [done |]. split; [done |].
      rewrite <- (length_replicate (length (data s)) default_color).
      apply apply_captures_returns.
      destruct (apply_captures _ _) as [overlay|]; [by eexists | done].
    + intros (lang' & highlights' & q' & [= <- <-] & Hq' & Hcs).
      rewrite Hq in Hq'. injection Hq' as <-.
      rewrite <- (length_replicate (length (data s)) default_color) in Hcs.
      apply apply_captures_returns in Hcs as [overlay Ho].
      rewrite Ho. by eexists.
  - split; [by intros [? ?] |].
    intros (lang' & highlights' & q' & [= <- <-] & Hq' & _). congruence.
Qed.

Lemma switch_name_in (cases : list (string * byte)) (name : string) :
  switch_name cases name ∈ default_color :: cases.*2.
Proof.
  induction cases as [|[case color] cases IH]; cbn; [by left |].
  case_bool_decide; [by right; left |].
  apply elem_of_cons in IH as [->|IH]; [by left | by do 2 right].
Qed.

Lemma range_over_invariant {A S : Type} (P : S → Prop)
    (body : S → A → outcome S) (l : list A) :
  (∀ st a st', P st → body st a = Returned st' → P st') →
  ∀ st st', P st → range_over body l st = Returned st' → P st'.
Proof.
  intros Hbody. induction l as [|a l IH]; intros st st' Hst.
  - cbn. by intros [= <-].
  - cbn. destruct (body st a) as [st1|] eqn:Hb; [| done].
    cbn. apply IH. by eapply Hbody.
Qed.

Lemma paint_Forall (P : byte → Prop) (count : nat) (colors colors' : list byte)
    (color : byte) (index : nat) :
  P color → Forall P colors →
  paint colors color index count = Returned colors' → Forall P colors'.
Proof.
  intros Hc. revert colors index.
  induction count as [|count IH]; intros colors index Hcs.
  - cbn. by intros [= <-].
  - cbn [paint]. case_decide; [| done]. apply IH.
    by apply Forall_insert.
Qed.

Lemma palette_in_theme :
  Forall (λ c, is_Some (theme !! Byte.to_nat c)) palette.
Proof. repeat constructor; by eexists. Qed.

Lemma apply_matches_palette (ms : list (list Capture)) (colors colors' : list byte) :
  Forall (λ c, c ∈ palette) colors →
  apply_matches colors ms = Returned colors' →
  Forall (λ c, c ∈ palette) colors'.
Proof.
  apply (range_over_invariant (Forall (λ c, c ∈ palette))).
  intros c0 cs c1. apply range_over_invariant.
  intros c2 c c3 H2. apply paint_Forall; [| done].
  apply switch_name_in.
Qed.

Lemma GenerateSyntaxTree_in_palette
    (sitter : Sitter) (s : SourceCode) (ext : string) (msg : TreeReloadMsg.t) :
  GenerateSyntaxTree sitter s ext = Returned msg →
  Forall (λ c, c ∈ palette) (TreeReloadMsg.colors msg).
Proof.
  unfold GenerateSyntaxTree.
  repeat case_bool_decide; cbn; try done.
  all: destruct (NewQuery _ _ _); cbn; [| done].
  all: destruct (apply_matches _ _) as [overlay|] eqn:Ha; cbn; [| done].
  all: intros [= <-]; cbn.
  all: eapply apply_matches_palette; [| done].
  all: rewrite bytes_Repeat_one; apply Forall_replicate; by left.
Qed.

(** X13.  Every colour of an overlay [GenerateSyntaxTree] returns is the
    default class or the class of a case of the lookup, and is an index
    into the sixteen colours of the theme: rendering such an overlay never
    indexes the theme out of range. *)
Theorem GenerateSyntaxTree_palette
    (sitter : Sitter) (s : SourceCode) (ext : string) (msg : TreeReloadMsg.t) :
  GenerateSyntaxTree sitter s ext = Returned msg →
  Forall (λ c, c ∈ palette ∧ ∃ t, theme_at (Byte.to_nat c) = Returned t)
    (TreeReloadMsg.colors msg).
Proof.
  intros Hp%GenerateSyntaxTree_in_palette.
  eapply Forall_impl; [done |]. intros c Hc. split; [done |].
  pose proof palette_in_theme as Ht. rewrite Forall_forall in Ht.
  destruct (Ht c Hc) as [t Hlook]. exists t. unfold theme_at. by rewrite Hlook.
Qed.

Lemma GenerateSyntaxTree_palette_witness :
  Forall (λ c, c ∈ palette ∧ ∃ t, theme_at (Byte.to_nat c) = Returned t)
    [x05; x05; x0b; x0c; x0b; x05].
Proof.
  exact (GenerateSyntaxTree_palette sitter_string_escape source_six ".go"
           {| TreeReloadMsg.tree := Some (NodeAt 0);
              TreeReloadMsg.colors := [x05; x05; x0b; x0c; x0b; x05] |}
           eq_refl).
Defined.

(** ** Rendering *)

Lemma slice_app_l (l spare : list byte) (a e : Z) :
  0 ≤ a ≤ e → e ≤ len l → slice (l ++ spare) a e = slice l a e.
Proof.
  unfold slice, len. intros Ha He.
  rewrite drop_app_le by lia. rewrite take_app_le; [done |].
  rewrite length_drop. lia.
Qed.

Lemma length_slice (l : list byte) (a e : Z) :
  0 ≤ a ≤ e → e ≤ len l → length (slice l a e) = Z.to_nat (e - a).
Proof.
  unfold slice, len. intros Ha He.
  rewrite length_take, length_drop. lia.
Qed.

(** Inside the length of a slice the spare capacity plays no part. *)
Lemma reslice_within (l spare : list byte) (a e : Z) :
  0 ≤ a ≤ e → e ≤ len l → reslice l spare a e = Returned (slice l a e).
Proof.
  intros Ha He. unfold reslice. pose proof (len_nonneg spare).
  rewrite bool_decide_eq_true_2 by lia. by rewrite slice_app_l.
Qed.

Lemma Forall_slice (P : byte → Prop) (l : list byte) (a e : Z) :
  Forall P l → Forall P (slice l a e).
Proof. intros H. unfold slice. by apply Forall_take, Forall_drop. Qed.

(** The bytes of a line come out in order, one cell each, and the cursor
    is drawn on the byte it is on. *)
Lemma View_bytes_spec (s : SourceCode) (lineinfo : LineInfo)
    (colors line : list byte) (j : nat) :
  Forall (λ c, is_Some (theme !! Byte.to_nat c)) colors →
  (j + length line ≤ length colors)%nat →
  Int.in_range (start lineinfo + Z.of_nat (j + length line)) →
  0 ≤ start lineinfo →
  ∃ cells,
    View_bytes s lineinfo colors line j = Returned cells
    ∧ omap cell_byte cells = line
    ∧ omap cell_number cells = []
    ∧ count_cells is_NewLine cells = 0%nat
    ∧ count_cells is_cursor_cell cells
      = (if bool_decide (start lineinfo + Z.of_nat j ≤ cursor s
                         < start lineinfo + Z.of_nat (j + length line))
         then 1%nat else 0%nat).
Proof.
  intros Hcolors. revert j.
  induction line as [|b line IH]; intros j Hlen Hrange H0.
  - exists []. cbn. repeat split. rewrite bool_decide_eq_false_2; [done | lia].
  - cbn [length] in *.
    destruct (IH (S j)) as (rest & Hrest & Hbytes & Hnum & Hnl & Hcur).
    { lia. }
    { by replace (S j + length line)%nat with (j + S (length line))%nat by lia. }
    { done. }
    cbn [View_bytes]. rewrite Hrest.
    rewrite IntFacts.add_id by (int_bounds; lia).
    destruct (decide (cursor s = start lineinfo + Z.of_nat j)) as [Hc|Hc].
    + rewrite bool_decide_eq_true_2 by done. cbn.
      eexists. split; [done |]. unfold count_cells in *. cbn.
      rewrite Hbytes, Hnum, Hcur.
      repeat split; try done.
      rewrite bool_decide_eq_false_2 by lia.
      rewrite bool_decide_eq_true_2 by lia. done.
    + rewrite bool_decide_eq_false_2 by done.
      destruct (colors !! j) as [color|] eqn:Hcol; last first.
      { apply lookup_ge_None in Hcol. lia. }
      rewrite Forall_forall in Hcolors.
      destruct (Hcolors color) as [t Ht].
      { by eapply list_elem_of_lookup_2. }
      unfold theme_at. rewrite Ht. cbn.
      eexists. split; [done |]. unfold count_cells in *. cbn.
      rewrite Hbytes, Hnum, Hcur.
      repeat split; try done.
      repeat case_bool_decide; (done || lia).
Qed.

Lemma count_cells_app (f : cell → bool) (l1 l2 : list cell) :
  count_cells f (l1 ++ l2) = (count_cells f l1 + count_cells f l2)%nat.
Proof. unfold count_cells. by rewrite List.filter_app, length_app. Qed.

Lemma omap_app_cells {B : Type} (f : cell → option B) (l1 l2 : list cell) :
  omap f (l1 ++ l2) = omap f l1 ++ omap f l2.
Proof. apply omap_app. Qed.

(** The row of line [lineinfo], when its range lies in the data. *)
Lemma View_row_cells (s : SourceCode) (spare_data spare_colors : list byte)
    (i stop : Z) :
  renderable s →
  ∃ cells,
    View_row s spare_data spare_colors i stop
    = Returned
        ([LineNumber "#414559" (Int.add i 1)]
         ++ cells
         ++ (if bool_decide (cursor s = end_ (default LineInfo_zero (lines s !! i)))
             then [CursorAtEnd] else [])
         ++ (if bool_decide (i < Int.sub stop 1) then [NewLine] else []))
    ∧ omap cell_byte cells
      = row_text (data s) (default LineInfo_zero (lines s !! i))
    ∧ omap cell_number cells = []
    ∧ count_cells is_NewLine cells = 0%nat
    ∧ count_cells is_cursor_cell cells
      = (if bool_decide
              (start (default LineInfo_zero (lines s !! i)) ≤ cursor s
               < end_ (default LineInfo_zero (lines s !! i)))
         then 1%nat else 0%nat).
Proof.
  intros ([Hmax Hrows] & Hlen & Hcolors).
  set (lineinfo := default LineInfo_zero (lines s !! i)).
  pose proof (len_nonneg (data s)) as Hn.
  assert (Hline : 0 ≤ start lineinfo ≤ end_ lineinfo
                  ∧ end_ lineinfo ≤ len (data s)).
  { unfold lineinfo. destruct (lines s !! i) as [line|] eqn:Hl;
      cbn [default from_option id].
    - destruct (Hrows i line Hl) as (? & ? & ?). lia.
    - cbn. lia. }
  destruct Hline as [Hse He].
  assert (Hlenc : len (colors s) = len (data s)) by (unfold len; by rewrite Hlen).
  unfold View_row. fold lineinfo. unfold GetSlice, GetColors.
  rewrite !reslice_within by (done || lia).
  cbn [mbind outcome_bind].
  change (theme_at 2) with (Returned "#414559"%string).
  cbn [mbind outcome_bind].
  destruct (View_bytes_spec s lineinfo
              (slice (colors s) (start lineinfo) (end_ lineinfo))
              (slice (data s) (start lineinfo) (end_ lineinfo)) 0)
    as (cells & Hcells & Hbytes & Hnum & Hnl & Hcur).
  - by apply Forall_slice.
  - rewrite !length_slice by (done || lia). lia.
  - rewrite length_slice by (done || lia). int_bounds. lia.
  - lia.
  - exists cells. rewrite Hcells. cbn [mbind outcome_bind mret outcome_ret].
    split; [done |]. split; [done |]. split; [done |]. split; [done |].
    rewrite Hcur. rewrite length_slice by (done || lia).
    apply (f_equal (λ b : bool, if b then 1%nat else 0%nat)).
    apply bool_decide_ext. lia.
Qed.

Lemma View_rows_returns (s : SourceCode) (spare_data spare_colors : list byte)
    (stop : Z) (count : nat) (i : Z) :
  renderable s →
  ∃ cells, View_rows s spare_data spare_colors i stop count = Returned cells.
Proof.
  intros Hs. revert i. induction count as [|count IH]; intros i.
  - by exists [].
  - cbn [View_rows].
    destruct (View_row_cells s spare_data spare_colors i stop Hs)
      as (cells & -> & _).
    destruct (IH (Int.add i 1)) as (rest & ->). cbn. by eexists.
Qed.

(** X14.  [View] draws every buffer whose rows lie in its data, whose
    colors are as many as its bytes and whose colours are indices into the
    theme, and it draws the model without a buffer: for any offset and any
    size of the viewport, and whatever lies past the length of the slices,
    no slice and no index is out of range. *)
Theorem View_returns (m : Model) (spare_data spare_colors : list byte) :
  match source m with
  | Some s => renderable s
  | None => True
  end →
  ∃ cells, View m spare_data spare_colors = Returned cells.
Proof.
  unfold View. destruct (source m) as [s|]; intros Hs.
  - by apply View_rows_returns.
  - by eexists.
Qed.

Lemma SetSource_renderable (s : SourceCode) (source : list byte) :
  4 * len source ≤ Int.max_int → renderable (SetSource s source).
Proof.
  intros Hmax. split; [by apply SetSource_rows_in_data |].
  rewrite SetSource_colors. split.
  - by rewrite length_replicate.
  - apply Forall_replicate. by eexists.
Qed.

Lemma View_returns_witness :
  ∃ cells, View (Model_of source_a_b) [] [] = Returned cells.
Proof.
  apply (View_returns (Model_of source_a_b) [] []).
  apply (SetSource_renderable SourceCode_zero [x61; x0a; x20; x62; x0a]).
  vm_compute. discriminate.
Defined.

Lemma seqZ_to_nat (m n : Z) : seqZ m (Z.of_nat (Z.to_nat n)) = seqZ m n.
Proof. unfold seqZ. by rewrite Nat2Z.id. Qed.

Lemma View_rows_numbers (s : SourceCode) (spare_data spare_colors : list byte)
    (stop : Z) (count : nat) (i : Z) :
  renderable s →
  Int.min_int ≤ i → i + Z.of_nat count ≤ stop → stop ≤ Int.max_int →
  ∃ cells,
    View_rows s spare_data spare_colors i stop count = Returned cells
    ∧ omap cell_number cells = seqZ (i + 1) (Z.of_nat count)
    ∧ count_cells is_NewLine cells
      = Z.to_nat (Z.min (Z.of_nat count) (stop - 1 - i)).
Proof.
  intros Hs. revert i. induction count as [|count IH]; intros i Hi Hstop Hmax.
  - exists []. cbn. repeat split. lia.
  - cbn [View_rows].
    destruct (View_row_cells s spare_data spare_colors i stop Hs)
      as (cells & -> & _ & Hnum & Hnl & _).
    assert (Hi1 : Int.add i 1 = i + 1) by (apply IntFacts.add_id; int_bounds; lia).
    assert (Hs1 : Int.sub stop 1 = stop - 1)
      by (apply IntFacts.sub_id; int_bounds; lia).
    rewrite Hi1, Hs1.
    destruct (IH (i + 1)) as (rest & -> & Hrnum & Hrnl); [lia | lia | done |].
    cbn [mbind outcome_bind mret outcome_ret]. eexists. split; [done |].
    rewrite !omap_app, !count_cells_app, Hnum, Hnl, Hrnum, Hrnl.
    split.
    + rewrite (seqZ_cons (i + 1) (Z.of_nat (S count))) by lia.
      cbn [omap list_omap cell_number app].
      assert (Hno : ∀ (P Q : bool),
                omap cell_number
                  ((if P then [CursorAtEnd] else [])
                   ++ (if Q then [NewLine] else [])) = [])
        by (by intros [] []).
      rewrite <- omap_app, Hno. cbn. f_equal. f_equal; lia.
    + replace (count_cells is_NewLine [LineNumber "#414559" (i + 1)]) with 0%nat
        by done.
      repeat case_bool_decide; cbn; lia.
Qed.

(** The rows come one after the other, each as its number, its body and
    its newline. *)
Lemma View_rows_layout (s : SourceCode) (spare_data spare_colors : list byte)
    (stop : Z) (count : nat) (i : Z) :
  renderable s →
  Int.min_int ≤ i → i + Z.of_nat count ≤ stop → stop ≤ Int.max_int →
  ∃ bodies,
    View_rows s spare_data spare_colors i stop count
    = Returned (rows_layout i stop bodies)
    ∧ length bodies = count
    ∧ Forall row_body bodies.
Proof.
  intros Hs. revert i. induction count as [|count IH]; intros i Hi Hstop Hmax.
  - by exists [].
  - cbn [View_rows].
    destruct (View_row_cells s spare_data spare_colors i stop Hs)
      as (cells & -> & _ & Hnum & Hnl & _).
    assert (Hi1 : Int.add i 1 = i + 1) by (apply IntFacts.add_id; int_bounds; lia).
    assert (Hs1 : Int.sub stop 1 = stop - 1)
      by (apply IntFacts.sub_id; int_bounds; lia).
    rewrite Hi1, Hs1.
    destruct (IH (i + 1)) as (bodies & -> & Hlen & Hbodies); [lia | lia | done |].
    cbn [mbind outcome_bind mret outcome_ret].
    exists ((cells
             ++ (if bool_decide
                      (cursor s = end_ (default LineInfo_zero (lines s !! i)))
                 then [CursorAtEnd] else [])) :: bodies).
    split; [| split].
    + cbn [rows_layout app]. by rewrite <- !app_assoc.
    + cbn [length]. by rewrite Hlen.
    + apply Forall_cons. split; [| done]. unfold row_body.
      rewrite omap_app, count_cells_app, Hnum, Hnl.
      by case_bool_decide.
Qed.

(** X15.  [View] draws as many rows as the viewport is high, one after the
    other, each as its number, what the row shows, and a newline: the
    numbers are those from [offset + 1] to [offset + height] in order, rows
    past the end of the file included; a newline ends every row but the
    last, so that the rows are parted by [height - 1] newlines with none
    after the last, and no number or newline is drawn anywhere else. *)
Theorem View_numbers_rows
    (m : Model) (s : SourceCode) (spare_data spare_colors : list byte) :
  source m = Some s →
  renderable s →
  Int.in_range (offset (viewport m)) →
  Int.in_range (offset (viewport m) + height (viewport m)) →
  ∃ cells,
    View m spare_data spare_colors = Returned cells
    ∧ omap cell_number cells
      = seqZ (offset (viewport m) + 1) (height (viewport m))
    ∧ count_cells is_NewLine cells = Z.to_nat (height (viewport m) - 1)
    ∧ ∃ bodies,
        cells = rows_layout (offset (viewport m))
                  (offset (viewport m) + height (viewport m)) bodies
        ∧ length bodies = Z.to_nat (height (viewport m))
        ∧ Forall row_body bodies.
Proof.
  intros Hsrc Hs Ho Hstop. unfold View. rewrite Hsrc.
  rewrite IntFacts.add_id by done.
  destruct (decide (0 ≤ height (viewport m))) as [Hh|Hh]; last first.
  { replace (Z.to_nat _) with 0%nat by lia. exists []. cbn.
    rewrite seqZ_nil by lia. split; [done |]. split; [done |].
    split; [lia |]. exists []. split; [done |]. split; [cbn; lia | done]. }
  destruct (View_rows_numbers s spare_data spare_colors
              (offset (viewport m) + height (viewport m))
              (Z.to_nat (offset (viewport m) + height (viewport m)
                         - offset (viewport m)))
              (offset (viewport m)) Hs)
    as (cells & Hcells & Hnum & Hnl).
  { int_bounds. lia. }
  { lia. }
  { int_bounds. lia. }
  destruct (View_rows_layout s spare_data spare_colors
              (offset (viewport m) + height (viewport m))
              (Z.to_nat (offset (viewport m) + height (viewport m)
                         - offset (viewport m)))
              (offset (viewport m)) Hs)
    as (bodies & Hlayout & Hlen & Hbodies).
  { int_bounds. lia. }
  { lia. }
  { int_bounds. lia. }
  exists cells. split; [done |].
  rewrite Hcells in Hlayout. injection Hlayout as Hlayout.
  replace (offset (viewport m) + height (viewport m) - offset (viewport m))
    with (height (viewport m)) in * by lia.
  rewrite seqZ_to_nat in Hnum. split; [done |]. split; [rewrite Hnl; lia |].
  by exists bodies.
Qed.

Lemma View_numbers_rows_witness :
  ∃ cells,
    View (Model_of source_a_b) [] [] = Returned cells
    ∧ omap cell_number cells = seqZ (0 + 1) 22
    ∧ count_cells is_NewLine cells = Z.to_nat (22 - 1)
    ∧ ∃ bodies,
        cells = rows_layout 0 (0 + 22) bodies
        ∧ length bodies = Z.to_nat 22
        ∧ Forall row_body bodies.
Proof.
  apply (View_numbers_rows (Model_of source_a_b) source_a_b [] []).
  - reflexivity.
  - apply (SetSource_renderable SourceCode_zero [x61; x0a; x20; x62; x0a]).
    vm_compute. discriminate.
  - vm_compute. split; discriminate.
  - vm_compute. split; discriminate.
Defined.



(** X17.  A row that has no entry in the lines, as every row past the end
    of the file, is drawn as its number alone, and with a cursor after the
    number whenever the cursor is at offset 0: no byte of the data is read
    for it, in any buffer. *)
Theorem View_row_past_end
    (s : SourceCode) (spare_data spare_colors : list byte) (i stop : Z) :
  lines s !! i = None →
  View_row s spare_data spare_colors i stop
  = Returned
      ([LineNumber "#414559" (Int.add i 1)]
       ++ (if bool_decide (cursor s = 0) then [CursorAtEnd] else [])
       ++ (if bool_decide (i < Int.sub stop 1) then [NewLine] else [])).
Proof.
  intros Hl. unfold View_row, GetSlice, GetColors, reslice. rewrite Hl.
  cbn [default from_option LineInfo_zero start end_ id].
  pose proof (len_nonneg (data s)). pose proof (len_nonneg (colors s)).
  pose proof (len_nonneg spare_data). pose proof (len_nonneg spare_colors).
  rewrite (bool_decide_eq_true_2 (0 ≤ 0 ∧ 0 ≤ 0 ∧ 0 ≤ len (data s) + _)) by lia.
  cbn [mbind outcome_bind].
  rewrite (bool_decide_eq_true_2 (0 ≤ 0 ∧ 0 ≤ 0 ∧ 0 ≤ len (colors s) + _)) by lia.
  done.
Qed.

Lemma View_row_past_end_witness :
  View_row source_a_b [] [] 7 22
  = Returned [LineNumber "#414559" 8; CursorAtEnd; NewLine].
Proof.
  refine (View_row_past_end source_a_b [] [] 7 22 _).
  vm_compute. reflexivity.
Defined.

(** X18.  [View] stops the program when the colors are too few for a row
    it draws: if the first visible row is a line of the data that ends past
    the colors and what capacity they have to spare, slicing the colors
    fails.  This is what a parse completion with too few colours leads
    to. *)
Theorem View_crashes_on_short_colors
    (m : Model) (s : SourceCode) (spare_data spare_colors : list byte)
    (line : LineInfo) :
  source m = Some s →
  0 < height (viewport m) →
  Int.in_range (offset (viewport m) + height (viewport m)) →
  lines s !! offset (viewport m) = Some line →
  0 ≤ start line ≤ end_ line →
  end_ line ≤ len (data s) →
  len (colors s) + len spare_colors < end_ line →
  crashes (View m spare_data spare_colors).
Proof.
  intros Hs Hh Hstop Hl Hse He Hshort. unfold View. rewrite Hs.
  rewrite IntFacts.add_id by done.
  destruct (Z.to_nat _) as [|count] eqn:Hcount; [lia |].
  cbn [View_rows]. unfold View_row. rewrite Hl.
  cbn [default from_option id]. unfold GetSlice, GetColors.
  rewrite (reslice_within (data s)) by done. cbn [mbind outcome_bind].
  unfold reslice. rewrite (bool_decide_eq_false_2 (0 ≤ start line ∧ _)) by lia. done.
Qed.

Lemma View_crashes_on_short_colors_witness :
  crashes
    (View (set_source (Model_of source_a_b)
             (Some (reloaded source_a_b
                      {| TreeReloadMsg.tree := None;
                         TreeReloadMsg.colors := [] |}))) [] []).
Proof.
  apply (View_crashes_on_short_colors _
           (reloaded source_a_b {| TreeReloadMsg.tree := None;
                                   TreeReloadMsg.colors := [] |})
           [] [] (mkLineInfo 0 1 0)).
  - reflexivity.
  - reflexivity.
  - vm_compute. split; discriminate.
  - vm_compute. reflexivity.
  - vm_compute. split; discriminate.
  - vm_compute. discriminate.
  - vm_compute. reflexivity.
Defined.

Lemma handled_renderable (m : Model) (msg : Msg) (m' : Model) (s : SourceCode) :
  handled m msg m' →
  source m = Some s → renderable s → fits_buffer (data s) msg →
  ∃ s', source m' = Some s' ∧ data s' = data s ∧ renderable s'.
Proof.
  intros [msg0 Hb Hv | w h | s2 msg0 val Hs2 Hv Hc Ht | s2 msg0 val Hs2 Hc Hv Ht
         | s2 X Y row x Hs2 | s2 t Hs2] Hs Hr Hfit;
    cbn [source set_source set_offset set_viewport set_ready];
    try (by exists s); rewrite Hs in Hs2; injection Hs2 as <-.
  - by eexists.
  - by eexists.
  - eexists. split; [done |]. split; [done |].
    destruct Hr as (Hrows & _ & _). destruct Hfit as [Hlen Hcol].
    by split.
Qed.

Lemma Updates_renderable (msgs : list Msg) (m : Model) (s : SourceCode)
    (m' : Model) :
  source m = Some s →
  renderable s →
  Forall (fits_buffer (data s)) msgs →
  Updates m msgs = Returned m' →
  ∃ s', source m' = Some s' ∧ data s' = data s ∧ renderable s'.
Proof.
  revert m s. induction msgs as [|msg msgs IH]; intros m s Hs Hr Hfit.
  - cbn. intros [= <-]. by exists s.
  - rewrite Updates_cons.
    destruct (Update m msg) as [[m1 cmds]|] eqn:Hu; [| done].
    apply Forall_cons in Hfit as [Hmsg Hfit].
    destruct (handled_renderable m msg m1 s (Update_handled _ _ _ _ Hu) Hs Hr Hmsg)
      as (s1 & Hs1 & Hd1 & Hr1).
    intros Hrun. rewrite <- Hd1 in Hfit.
    destruct (IH m1 s1 Hs1 Hr1 Hfit Hrun) as (s' & Hs' & Hd' & Hr').
    exists s'. split; [done |]. split; [congruence | done].
Qed.

(** X19.  A buffer [View] can draw stays one through any run of messages
    that suit it, that is in which every parse completion brings a colour
    of the theme for each byte of the data: after the run the data is the
    same and [View] still returns. *)
Theorem Updates_keep_renderable
    (m : Model) (s : SourceCode) (msgs : list Msg) (m' : Model)
    (spare_data spare_colors : list byte) :
  source m = Some s →
  renderable s →
  Forall (fits_buffer (data s)) msgs →
  Updates m msgs = Returned m' →
  (∃ s', source m' = Some s' ∧ data s' = data s ∧ renderable s')
  ∧ ∃ cells, View m' spare_data spare_colors = Returned cells.
Proof.
  intros Hs Hr Hfit Hrun.
  destruct (Updates_renderable msgs m s m' Hs Hr Hfit Hrun) as (s' & Hs' & Hd' & Hr').
  split; [by exists s' |].
  unfold View. rewrite Hs'. by apply View_rows_returns.
Qed.

Lemma Updates_keep_renderable_witness :
  (∃ s', source (set_source (Model_of source_a_b)
                   (Some (reloaded (set_cursor source_a_b 1)
                            {| TreeReloadMsg.tree := None;
                               TreeReloadMsg.colors := [x0e; x05; x05; x0d; x05] |})))
         = Some s'
         ∧ data s' = data source_a_b ∧ renderable s')
  ∧ ∃ cells,
      View (set_source (Model_of source_a_b)
              (Some (reloaded (set_cursor source_a_b 1)
                       {| TreeReloadMsg.tree := None;
                          TreeReloadMsg.colors := [x0e; x05; x05; x0d; x05] |})))
        [] [] = Returned cells.
Proof.
  apply (Updates_keep_renderable (Model_of source_a_b) source_a_b
           [KeyMsg "l";
            TreeReload {| TreeReloadMsg.tree := None;
                          TreeReloadMsg.colors := [x0e; x05; x05; x0d; x05] |}]).
  - reflexivity.
  - apply (SetSource_renderable SourceCode_zero [x61; x0a; x20; x62; x0a]).
    vm_compute. discriminate.
  - repeat constructor; by eexists.
  - vm_compute. reflexivity.
Defined.

(** ** Opening a file *)

(** X20.  [OpenFile] either fails and leaves the model as it was, showing
    the error of the open or of the read, or puts a new buffer in the
    model: the buffer is what [SetSource] makes of the content read, so it
    holds that content, with the cursor at 0, no tree, the default colour
    on each byte and a row for each newline, rows and colors that [View]
    can draw; the viewport is back at row 0 with its size kept, the path
    and the file are the new ones, and the command batches the viewport
    update with the parse of the new buffer under the extension of the
    path. *)
Theorem OpenFile_outcome (fs : FileSystem) (m : Model) (path : string) :
  (∀ err, os_OpenFile fs path = inr err →
          OpenFile fs m path = (m, ShowError err))
  ∧ (∀ file err, os_OpenFile fs path = inl file → io_ReadAll fs file = inr err →
               OpenFile fs m path = (m, ShowError err))
  ∧ (∀ file content,
       os_OpenFile fs path = inl file → io_ReadAll fs file = inl content →
       4 * len content ≤ Int.max_int →
       ∃ m' s,
         OpenFile fs m path
         = (m', OpenBatch UpdateViewport s (filepath_Ext fs path))
         ∧ source m' = Some s
         ∧ data s = content ∧ cursor s = 0 ∧ tree s = None
         ∧ renderable s ∧ cursor_in_data s
         ∧ viewport m'
           = {| offset := 0; width := width (viewport m);
                height := height (viewport m) |}
         ∧ Path m' = path ∧ fd m' = Some file ∧ modified m' = false
         ∧ ready m' = ready m ∧ Focused m' = Focused m
         ∧ s = SetSource SourceCode_zero content
         ∧ colors s = replicate (length content) default_color
         ∧ len_lines (lines s) = count_byte newline content).
Proof.
  unfold OpenFile. split; [| split].
  - by intros err ->.
  - by intros file err -> ->.
  - intros file content -> -> Hmax. eexists _, _. split; [done |].
    cbn [source data cursor tree viewport Path fd modified ready
         Focused SetSource].
    do 4 (split; [done |]).
    split; [by apply SetSource_renderable |].
    split; [by apply SetSource_rows_in_data |].
    do 6 (split; [done |]).
    split; [done |]. split; [apply bytes_Repeat_one |].
    destruct (SetSource_scan_inv content Hmax) as [_ _ Hsize _ _ _ _ _ _ _ _ _].
    cbn [lines SetSource]. by rewrite Hsize, SetSource_scan_count.
Qed.

Lemma OpenFile_outcome_witness :
  OpenFile fs_main_go New "missing.go"
  = (New, ShowError "no such file or directory")
  ∧ ∃ m' s,
      OpenFile fs_main_go New "main.go" = (m', OpenBatch UpdateViewport s ".go")
      ∧ source m' = Some s ∧ data s = [x61; x0a; x20; x62; x0a]
      ∧ renderable s
      ∧ colors s = replicate (length [x61; x0a; x20; x62; x0a]) default_color
      ∧ len_lines (lines s) = count_byte newline [x61; x0a; x20; x62; x0a].
Proof.
  destruct (OpenFile_outcome fs_main_go New "missing.go") as (Hfail & _).
  destruct (OpenFile_outcome fs_main_go New "main.go") as (_ & _ & Hok).
  split; [by apply Hfail |].
  destruct (Hok 3%N [x61; x0a; x20; x62; x0a])
    as (m' & s & Ho & Hs & Hd & _ & _ & Hr & _ & _ & _ & _ & _ & _ & _ & _
        & Hc & Hn).
  - reflexivity.
  - reflexivity.
  - vm_compute. discriminate.
  - by exists m', s.
Defined.

Lemma OpenFile_source (fs : FileSystem) (m : Model) (path : string)
    (file : N) (content : list byte) :
  os_OpenFile fs path = inl file → io_ReadAll fs file = inl content →
  source (OpenFile fs m path).1 = Some (SetSource SourceCode_zero content).
Proof. unfold OpenFile. by intros -> ->. Qed.

(** X21.  A file once opened can be drawn from then on: after [OpenFile]
    has read the content, any input before the parse completes, the
    completion of the parse that [GenerateSyntaxTree] ran on a buffer
    holding that content, and any input after it, [View] returns; the
    buffer then holds the content read and the colors of the parse. *)
Theorem opened_file_renders
    (fs : FileSystem) (m : Model) (path : string) (file : N)
    (content : list byte) (sitter : Sitter) (snapshot : SourceCode)
    (msg : TreeReloadMsg.t) (before after : list Msg) (m' : Model)
    (spare_data spare_colors : list byte) :
  os_OpenFile fs path = inl file →
  io_ReadAll fs file = inl content →
  4 * len content ≤ Int.max_int →
  data snapshot = content →
  GenerateSyntaxTree sitter snapshot (filepath_Ext fs path) = Returned msg →
  Forall (λ msg, is_TreeReload msg = false) before →
  Forall (λ msg, is_TreeReload msg = false) after →
  Updates (OpenFile fs m path).1 (before ++ TreeReload msg :: after)
  = Returned m' →
  (∃ cells, View m' spare_data spare_colors = Returned cells)
  ∧ ∃ s', source m' = Some s' ∧ data s' = content
          ∧ length (colors s') = length content.
Proof.
  intros Hopen Hread Hmax Hsnap Hparse Hbefore Hafter Hrun.
  pose proof (OpenFile_source fs m path file content Hopen Hread) as Hs.
  pose proof (SetSource_renderable SourceCode_zero content Hmax) as Hr.
  assert (Hinput : ∀ msgs, Forall (λ msg, is_TreeReload msg = false) msgs →
                           Forall (fits_buffer content) msgs).
  { intros msgs H. eapply Forall_impl; [done |]. by intros []. }
  assert (Hfit : Forall (fits_buffer content) (before ++ TreeReload msg :: after)).
  { apply Forall_app. split; [by apply Hinput |].
    apply Forall_cons. split; [| by apply Hinput].
    cbn. split.
    - rewrite <- Hsnap. by eapply GenerateSyntaxTree_length.
    - pose proof palette_in_theme as Ht. rewrite Forall_forall in Ht.
      eapply Forall_impl; [by eapply GenerateSyntaxTree_in_palette |].
      intros c Hc. by apply Ht. }
  destruct (Updates_renderable _ _ _ _ Hs Hr Hfit Hrun)
    as (s' & Hs' & Hd' & Hr').
  split.
  - unfold View. rewrite Hs'. by apply View_rows_returns.
  - exists s'. split; [done |]. split; [done |].
    destruct Hr' as (_ & Hlen & _). rewrite Hlen. by rewrite Hd'.
Qed.

Lemma opened_file_renders_witness :
  ∃ m',
    Updates (OpenFile fs_main_go New "main.go").1
      ([WindowSizeMsg 80 24; KeyMsg "l"]
       ++ TreeReload {| TreeReloadMsg.tree := Some (NodeAt 0);
                        TreeReloadMsg.colors := [x05; x05; x05; x05; x05] |}
       :: [MouseMsg MouseButtonLeft 8 1])
    = Returned m'
    ∧ (∃ cells, View m' [] [] = Returned cells)
    ∧ ∃ s', source m' = Some s' ∧ data s' = [x61; x0a; x20; x62; x0a]
            ∧ length (colors s') = length [x61; x0a; x20; x62; x0a].
Proof.
  eexists. split; [vm_compute; reflexivity |].
  apply (opened_file_renders fs_main_go New "main.go" 3%N
           [x61; x0a; x20; x62; x0a] sitter_no_matches
           (SetSource SourceCode_zero [x61; x0a; x20; x62; x0a])
           {| TreeReloadMsg.tree := Some (NodeAt 0);
              TreeReloadMsg.colors := [x05; x05; x05; x05; x05] |}
           [WindowSizeMsg 80 24; KeyMsg "l"] [MouseMsg MouseButtonLeft 8 1]).
  - reflexivity.
  - reflexivity.
  - vm_compute. discriminate.
  - reflexivity.
  - reflexivity.
  - by repeat constructor.
  - by repeat constructor.
  - vm_compute. reflexivity.
Defined.

(** ** Slices *)

(** X22.  [GetSlice] and [GetColors] inside the length of the slice give
    the bytes asked for, whatever capacity the slice has to spare: the
    whole range gives back the slice, an empty range gives no byte, and
    the slices of two adjacent ranges, put end to end, are the slice of the
    joined range. *)
Theorem GetSlice_within (s : SourceCode) (spare : list byte) (a b c : Z) :
  0 ≤ a ≤ b → b ≤ c → c ≤ len (data s) →
  GetSlice s spare 0 (len (data s)) = Returned (data s)
  ∧ GetSlice s spare b b = Returned []
  ∧ ∃ left right whole,
      GetSlice s spare a b = Returned left
      ∧ GetSlice s spare b c = Returned right
      ∧ GetSlice s spare a c = Returned whole
      ∧ whole = left ++ right
      ∧ length left = Z.to_nat (b - a).
Proof.
  intros Hab Hbc Hc. unfold GetSlice. pose proof (len_nonneg (data s)) as Hn.
  rewrite !reslice_within by lia.
  split; [| split].
  - f_equal. unfold slice, len. cbn [drop].
    rewrite Z.sub_0_r, Nat2Z.id. by rewrite take_ge.
  - f_equal. unfold slice. by rewrite Z.sub_diag.
  - eexists _, _, _. do 3 (split; [done |]). split.
    + unfold slice.
      replace (Z.to_nat (c - a)) with (Z.to_nat (b - a) + Z.to_nat (c - b))%nat
        by lia.
      rewrite <- take_take_drop, drop_drop. do 3 f_equal. lia.
    + apply length_slice; lia.
Qed.

Lemma GetSlice_within_witness :
  GetSlice source_a_b [x00; x00] 0 (len (data source_a_b))
  = Returned (data source_a_b)
  ∧ GetSlice source_a_b [x00; x00] 2 2 = Returned [].
Proof.
  assert (H : GetSlice source_a_b [x00; x00] 0 (len (data source_a_b))
              = Returned (data source_a_b)
              ∧ GetSlice source_a_b [x00; x00] 2 2 = Returned []
              ∧ ∃ left right whole,
                  GetSlice source_a_b [x00; x00] 0 2 = Returned left
                  ∧ GetSlice source_a_b [x00; x00] 2 4 = Returned right
                  ∧ GetSlice source_a_b [x00; x00] 0 4 = Returned whole
                  ∧ whole = left ++ right
                  ∧ length left = Z.to_nat (2 - 0)).
  { apply (GetSlice_within source_a_b [x00; x00] 0 2 4).
    - vm_compute. split; discriminate.
    - vm_compute. discriminate.
    - vm_compute. discriminate. }
  destruct H as (H1 & H2 & _). by split.
Defined.

(** ** More of scrolling *)

Lemma set_offset_back (m : Model) (o : Z) :
  set_offset (set_offset m o) (offset (viewport m)) = m.
Proof. by destruct m as [? ? ? ? ? ? []]. Qed.

Lemma scroll_delta_back (h : Z) (op : scroll_op) :
  scroll_delta h (scroll_back op) = - scroll_delta h op.
Proof. destruct op; cbn; lia. Qed.

(** The offset a scroll leaves, away from the ends of [int]. *)
Lemma Update_scroll_exact (m : Model) (s : SourceCode) (op : scroll_op) (X Y : Z) :
  source m = Some s →
  Int.in_range (height (viewport m)) →
  Int.min_int ≤ len_lines (lines s) - height (viewport m) ≤ Int.max_int - 2 →
  Int.in_range (offset (viewport m) + scroll_delta (height (viewport m)) op) →
  Update m (scroll_msg op X Y)
  = Returned
      (set_offset m
         (scrolled (offset (viewport m)) (scroll_delta (height (viewport m)) op)
            (len_lines (lines s)) (height (viewport m))),
       scroll_cmds op).
Proof.
  intros Hs Hh Hrows Hval. rewrite (Update_scroll m s) by done.
  do 2 f_equal. f_equal.
  pose proof (scroll_delta_in_range (height (viewport m)) HalfPageDown Hh) as Hq.
  cbn [scroll_delta] in Hq.
  rewrite (IntFacts.sub_id (len_lines _)) by (int_bounds; lia).
  rewrite (IntFacts.add_id _ 2) by (int_bounds; lia).
  rewrite clamp_exact by (int_bounds; lia). unfold scrolled.
  replace (len_lines (lines s) - height (viewport m) + 2 - 1)
    with (len_lines (lines s) - height (viewport m) + 1) by lia.
  destruct op; cbn [scroll_delta] in *.
  - rewrite IntFacts.quot_id by done. rewrite IntFacts.sub_id; [done |].
    int_bounds; lia.
  - rewrite IntFacts.quot_id by done. rewrite IntFacts.add_id; [done |].
    int_bounds; lia.
  - rewrite IntFacts.sub_id; [done |]. int_bounds; lia.
  - rewrite IntFacts.add_id; [done |]. int_bounds; lia.
Qed.

(** X23.  Between the ends a scroll and the scroll back undo each other:
    when the offset and the offset moved both lie between row 0 and the
    last offset [rowCount - height + 1], the wheel down then up, the wheel
    up then down, and half a page one way then the other, give back the
    model. *)
Theorem scroll_there_and_back
    (m : Model) (s : SourceCode) (op : scroll_op) (X Y X' Y' : Z) :
  source m = Some s →
  Int.in_range (height (viewport m)) →
  Int.min_int ≤ len_lines (lines s) - height (viewport m) ≤ Int.max_int - 2 →
  0 ≤ offset (viewport m) ≤ len_lines (lines s) - height (viewport m) + 1 →
  0 ≤ offset (viewport m) + scroll_delta (height (viewport m)) op
    ≤ len_lines (lines s) - height (viewport m) + 1 →
  Updates m [scroll_msg op X Y; scroll_msg (scroll_back op) X' Y'] = Returned m.
Proof.
  intros Hs Hh Hrows Ho Ho'.
  rewrite Updates_cons, (Update_scroll_exact m s) by (done || int_bounds; lia).
  rewrite Updates_cons, (Update_scroll_exact _ s);
    cbn [source viewport set_offset set_viewport offset height];
    try done.
  - rewrite scroll_delta_back. unfold scrolled. cbn.
    replace (Z.max 0 (Z.min (Z.max 0 _ + _) _)) with (offset (viewport m)) by lia.
    by rewrite set_offset_back.
  - rewrite scroll_delta_back. unfold scrolled. int_bounds. lia.
Qed.

Lemma scroll_there_and_back_witness :
  Updates
    (set_viewport (Model_of source_ten_rows)
       {| offset := 2; width := 80; height := 4 |})
    [scroll_msg HalfPageDown 0 0; scroll_msg (scroll_back HalfPageDown) 0 0]
  = Returned
      (set_viewport (Model_of source_ten_rows)
         {| offset := 2; width := 80; height := 4 |}).
Proof.
  apply (scroll_there_and_back _ source_ten_rows HalfPageDown 0 0 0 0).
  - reflexivity.
  - vm_compute. split; discriminate.
  - vm_compute. split; discriminate.
  - vm_compute. split; discriminate.
  - vm_compute. split; discriminate.
Defined.

Lemma set_offset_same (m : Model) : set_offset m (offset (viewport m)) = m.
Proof. by destruct m as [? ? ? ? ? ? []]. Qed.

(** X24.  At the ends a scroll changes nothing: at row 0 a scroll that does
    not move down, and at the last offset, the larger of 0 and
    [rowCount - height + 1], a scroll that does not move up, give back the
    model as it was. *)
Theorem scroll_stops_at_ends
    (m : Model) (s : SourceCode) (op : scroll_op) (X Y : Z) :
  source m = Some s →
  Int.in_range (height (viewport m)) →
  Int.min_int ≤ len_lines (lines s) - height (viewport m) ≤ Int.max_int - 2 →
  Int.in_range (offset (viewport m) + scroll_delta (height (viewport m)) op) →
  (scroll_delta (height (viewport m)) op ≤ 0 → offset (viewport m) = 0 →
   Update m (scroll_msg op X Y) = Returned (m, scroll_cmds op))
  ∧ (0 ≤ scroll_delta (height (viewport m)) op →
     offset (viewport m)
     = Z.max 0 (len_lines (lines s) - height (viewport m) + 1) →
     Update m (scroll_msg op X Y) = Returned (m, scroll_cmds op)).
Proof.
  intros Hs Hh Hrows Hval. rewrite (Update_scroll_exact m s) by done.
  unfold scrolled. split; intros Hd Ho.
  - replace (Z.max 0 _) with (offset (viewport m)) by lia.
    by rewrite set_offset_same.
  - replace (Z.max 0 (Z.min _ _)) with (offset (viewport m)) by lia.
    by rewrite set_offset_same.
Qed.

Lemma scroll_stops_at_ends_witness :
  Update (Model_of source_ten_rows) (scroll_msg WheelUp 0 0)
  = Returned (Model_of source_ten_rows, scroll_cmds WheelUp)
  ∧ Update
      (set_viewport (Model_of source_ten_rows)
         {| offset := 7; width := 80; height := 4 |})
      (scroll_msg HalfPageDown 0 0)
    = Returned
        (set_viewport (Model_of source_ten_rows)
           {| offset := 7; width := 80; height := 4 |},
         scroll_cmds HalfPageDown).
Proof.
  split.
  - apply (proj1 (scroll_stops_at_ends (Model_of source_ten_rows)
                    source_ten_rows WheelUp 0 0 eq_refl
                    ltac:(vm_compute; split; discriminate)
                    ltac:(vm_compute; split; discriminate)
                    ltac:(vm_compute; split; discriminate)));
      [vm_compute; discriminate | reflexivity].
  - apply (proj2 (scroll_stops_at_ends
                    (set_viewport (Model_of source_ten_rows)
                       {| offset := 7; width := 80; height := 4 |})
                    source_ten_rows HalfPageDown 0 0 eq_refl
                    ltac:(vm_compute; split; discriminate)
                    ltac:(vm_compute; split; discriminate)
                    ltac:(vm_compute; split; discriminate)));
      [vm_compute; discriminate | reflexivity].
Defined.
